(** * astro-global-state: the [useGlobal] hook over a shared query cache

    A shallow embedding of [src/useGlobal/useGlobal.ts] and of the singleton
    module [react-query-client] (the file that exports [queryClient]), together
    with a model of the part of [@tanstack/react-query] they call:
    [useQueryClient], [useQuery], [getQueryData], [setQueryData],
    [removeQueries] and [invalidateQueries].

    JavaScript objects with identity (the [QueryClient] instances) live in a
    heap indexed by references; a hook call is a function from the world before
    the render to its result and the world after it; the closures a hook call
    returns ([get], [setData], [refresh], [reset]) are Rocq functions that close
    over what the TypeScript closures capture. *)

From stdpp Require Import gmap strings list fin_maps.
From Stdlib Require Import ZArith.
From Stdlib Require Import Ascii.

Open Scope string_scope.

(** ** JavaScript values

    The state a caller keeps under a key.  [undefined] and [null] are distinct
    values, as in JavaScript.  Function-valued state is not part of the value
    model: wherever the source tests [typeof x === "function"], the argument is
    a tagged union of a plain value and a function. *)

Inductive js_value : Type :=
  | VUndefined
  | VNull
  | VBool (b : bool)
  | VNum (n : Z)
  | VStr (s : string).

#[global] Instance js_value_eq_dec : EqDecision js_value.
Proof. solve_decision. Defined.

(** [a ?? b] *)
Definition nullish (a b : js_value) : js_value :=
  match a with
  | VUndefined | VNull => b
  | _ => a
  end.

(** [Array.prototype.join] on an array of strings. *)
Fixpoint Array_join (sep : string) (l : list string) : string :=
  match l with
  | [] => ""
  | x :: xs =>
      match xs with
      | [] => x
      | _ :: _ => x +:+ sep +:+ Array_join sep xs
      end
  end.

(** ** The model of the cache library *)

Module ReactQuery.

(** What a query's reducer accepts.  [manual] is set by [setQueryData] and
    unset when a fetch settles. *)
Inductive Action : Type :=
  | ActSuccess (data : js_value) (manual : bool)
  | ActSetState (data : js_value)
  | ActInvalidate
  | ActFetch.

Inductive FetchStatus : Type := Idle | Fetching.

#[global] Instance FetchStatus_eq_dec : EqDecision FetchStatus.
Proof. solve_decision. Defined.

Inductive StaleTime : Type := Infinity | Millis (n : nat).

(** A [QueryObserver]: the subscription one component holds on one query,
    with the [enabled] and [queryFn] of its options.  [o_updates] is the
    sequence of actions its [onQueryUpdate] was called with, oldest first. *)
Record QueryObserver : Type := {
  o_component : nat;
  o_enabled : bool;
  o_queryFn : option (unit → js_value);
  o_updates : list Action
}.

(** A cache entry. *)
Record Query : Type := {
  state_data : js_value;
  state_isInvalidated : bool;
  state_fetchStatus : FetchStatus;
  options_queryFn : option (unit → js_value);
  observers : list QueryObserver
}.

(** The options object handed to [useQuery]. *)
Record UseQueryOptions : Type := {
  queryKey : list string;
  enabled : bool;
  queryFn : option (unit → js_value);
  initialData : js_value;
  staleTime : StaleTime
}.

(** A [QueryClient] with its [QueryCache].  The cache identifies a query by
    the hash of its key, [JSON.stringify] of the key array; on arrays of
    strings that hash is injective, so the key itself indexes the map. *)
Record QueryClient : Type := {
  queries : gmap (list string) Query
}.

(** [new QueryClient()] *)
Definition new_QueryClient : QueryClient := {| queries := ∅ |}.

Definition onQueryUpdate (a : Action) (o : QueryObserver) : QueryObserver :=
  {| o_component := o_component o;
     o_enabled := o_enabled o;
     o_queryFn := o_queryFn o;
     o_updates := o_updates o ++ [a] |}.

(** The state reducer of a query. *)
Definition reducer (a : Action) (q : Query) : Query :=
  match a with
  | ActSuccess d manual =>
      {| state_data := d;
         state_isInvalidated := false;
         state_fetchStatus := if manual then state_fetchStatus q else Idle;
         options_queryFn := options_queryFn q;
         observers := observers q |}
  | ActSetState d =>
      {| state_data := d;
         state_isInvalidated := false;
         state_fetchStatus := state_fetchStatus q;
         options_queryFn := options_queryFn q;
         observers := observers q |}
  | ActInvalidate =>
      {| state_data := state_data q;
         state_isInvalidated := true;
         state_fetchStatus := state_fetchStatus q;
         options_queryFn := options_queryFn q;
         observers := observers q |}
  | ActFetch =>
      {| state_data := state_data q;
         state_isInvalidated := state_isInvalidated q;
         state_fetchStatus := Fetching;
         options_queryFn := options_queryFn q;
         observers := observers q |}
  end.

(** [Query.dispatch]: reduce the state, then call every observer. *)
Definition dispatch (a : Action) (q : Query) : Query :=
  let q' := reducer a q in
  {| state_data := state_data q';
     state_isInvalidated := state_isInvalidated q';
     state_fetchStatus := state_fetchStatus q';
     options_queryFn := options_queryFn q';
     observers := onQueryUpdate a <$> observers q' |}.

(** [Query.isActive]: some observer is enabled. *)
Definition isActive (q : Query) : bool := existsb o_enabled (observers q).

(** [Query.invalidate]: dispatches only when not yet invalidated. *)
Definition invalidate (q : Query) : Query :=
  if state_isInvalidated q then q else dispatch ActInvalidate q.

(** [Query.fetch(options)]: the query takes the query function of the options
    it is handed, if any; when it then has none, it takes that of its first
    observer that has one.  The function is started; it settles later. *)
Definition fetch (options : option (option (unit → js_value))) (q : Query)
    : Query :=
  let handed :=
    match options with
    | Some fn => fn
    | None => options_queryFn q
    end in
  let fn :=
    match handed with
    | Some f => Some f
    | None =>
        match list_find (λ o, is_Some (o_queryFn o)) (observers q) with
        | Some (_, o) => o_queryFn o
        | None => None
        end
    end in
  dispatch ActFetch
    {| state_data := state_data q;
       state_isInvalidated := state_isInvalidated q;
       state_fetchStatus := state_fetchStatus q;
       options_queryFn := fn;
       observers := observers q |}.

(** The promise of a started fetch resolves: the query function's result is
    written as non-manual data. *)
Definition settle (q : Query) : Query :=
  match state_fetchStatus q, options_queryFn q with
  | Fetching, Some f => dispatch (ActSuccess (f ()) false) q
  | _, _ => q
  end.

(** The state of a query that [QueryCache.build] creates. *)
Definition new_Query (queryFn : option (unit → js_value))
    (initialData : js_value) : Query :=
  {| state_data := initialData;
     state_isInvalidated := false;
     state_fetchStatus := Idle;
     options_queryFn := queryFn;
     observers := [] |}.

(** [QueryCache.build]: the existing query of that key, or a new one. *)
Definition build (key : list string) (queryFn : option (unit → js_value))
    (initialData : js_value) (c : QueryClient) : Query :=
  match queries c !! key with
  | Some q => q
  | None => new_Query queryFn initialData
  end.

(** [queryClient.getQueryData(key)] *)
Definition getQueryData (key : list string) (c : QueryClient) : js_value :=
  match queries c !! key with
  | Some q => state_data q
  | None => VUndefined
  end.

(** [queryClient.setQueryData(key, data)] with [data] a plain value:
    [undefined] writes nothing; anything else builds the query when it is
    absent and dispatches a manual success. *)
Definition setQueryData (key : list string) (data : js_value)
    (c : QueryClient) : QueryClient :=
  match data with
  | VUndefined => c
  | _ =>
      let q := build key None VUndefined c in
      {| queries := <[key := dispatch (ActSuccess data true) q]> (queries c) |}
  end.

(** A filter [{ queryKey }] without [exact] matches every query whose key
    starts with [queryKey]. *)
Definition matchQuery (filters key : list string) : bool :=
  bool_decide (filters `prefix_of` key).

(** [queryClient.removeQueries({ queryKey })] *)
Definition removeQueries (filters : list string) (c : QueryClient)
    : QueryClient :=
  {| queries := filter (λ kq, matchQuery filters kq.1 = false) (queries c) |}.

(** [queryClient.invalidateQueries({ queryKey })]: invalidate every matching
    query, then refetch those of them that are active. *)
Definition invalidateQueries (filters : list string) (c : QueryClient)
    : QueryClient :=
  {| queries :=
       map_imap (λ key q,
         if matchQuery filters key then
           let q' := invalidate q in
           Some (if isActive q' then fetch None q' else q')
         else Some q) (queries c) |}.

(** The observer a component holds on a query: kept, with its options
    replaced, when the component renders again; added otherwise. *)
Definition subscribe (cid : nat) (enabled : bool)
    (queryFn : option (unit → js_value)) (obs : list QueryObserver)
    : list QueryObserver :=
  match list_find (λ o, o_component o = cid) obs with
  | Some (i, o) =>
      <[i := {| o_component := cid; o_enabled := enabled;
                o_queryFn := queryFn; o_updates := o_updates o |}]> obs
  | None =>
      obs ++ [{| o_component := cid; o_enabled := enabled;
                 o_queryFn := queryFn; o_updates := [] |}]
  end.

Definition isStale (opts : UseQueryOptions) (q : Query) : bool :=
  match state_data q with
  | VUndefined => true
  | _ =>
      state_isInvalidated q ||
      match staleTime opts with Infinity => false | Millis n => bool_decide (n = 0) end
  end.

Section Versions.
(** Releases of the library differ in what a query that exists takes from
    an observer that attaches to it.  In release 5 ([seedsExisting] true) the
    query takes the observer's options, and with [undefined] data it takes the
    observer's defined [initialData]; in release 4 ([seedsExisting] false) it
    keeps the options and the data it has.  Everything below holds for
    both. *)
Variable seedsExisting : bool.

(** What attaching an observer does to the options and data of its query:
    [Query.setOptions] in release 5, nothing in release 4. *)
Definition setOptions (opts : UseQueryOptions) (q : Query) : Query :=
  let q' :=
    {| state_data := state_data q;
       state_isInvalidated := state_isInvalidated q;
       state_fetchStatus := state_fetchStatus q;
       options_queryFn := if seedsExisting then queryFn opts else options_queryFn q;
       observers := observers q |} in
  match state_data q, initialData opts with
  | VUndefined, VUndefined => q'
  | VUndefined, d => if seedsExisting then dispatch (ActSetState d) q' else q'
  | _, _ => q'
  end.

(** [useQuery(options)] called by component [cid]; a render and the mount
    that follows it are one step, and [c] is the client the hook found in the
    context.  The observer builds or finds the query, attaches, subscribes,
    and fetches with its options on mount when it is enabled and the data is
    stale.  The result's [data] is the query's data. *)
Definition useQuery (opts : UseQueryOptions) (cid : nat) (c : QueryClient)
    : js_value * QueryClient :=
  let q0 := build (queryKey opts) (queryFn opts) (initialData opts) c in
  let q1 := setOptions opts q0 in
  let q2 :=
    {| state_data := state_data q1;
       state_isInvalidated := state_isInvalidated q1;
       state_fetchStatus := state_fetchStatus q1;
       options_queryFn := options_queryFn q1;
       observers := subscribe cid (enabled opts) (queryFn opts) (observers q1) |} in
  let q3 :=
    if enabled opts && isStale opts q2 then fetch (Some (queryFn opts)) q2 else q2 in
  (state_data q3, {| queries := <[queryKey opts := q3]> (queries c) |}).
End Versions.

End ReactQuery.

(** ** The singleton module [react-query-client] *)

(** The process: [globalThis.__astroQueryClient] and the [QueryClient] objects
    constructed so far, by reference. *)
Record World : Type := {
  astroQueryClient : option nat;
  heap : gmap nat ReactQuery.QueryClient
}.

(** The object a reference denotes. *)
Definition deref (r : nat) (w : World) : ReactQuery.QueryClient :=
  default ReactQuery.new_QueryClient (heap w !! r).

Definition update (r : nat) (f : ReactQuery.QueryClient → ReactQuery.QueryClient)
    (w : World) : World :=
  {| astroQueryClient := astroQueryClient w;
     heap := <[r := f (deref r w)]> (heap w) |}.

(** Evaluating the module:
    [globalThis.__astroQueryClient || (globalThis.__astroQueryClient = new QueryClient())].
    An object is truthy; [undefined] is not. *)
Definition queryClient (w : World) : nat * World :=
  match astroQueryClient w with
  | Some c => (c, w)
  | None =>
      let c := fresh (dom (heap w)) in
      (c, {| astroQueryClient := Some c;
             heap := <[c := ReactQuery.new_QueryClient]> (heap w) |})
  end.

(** ** [useGlobal] *)

Definition GLOBAL_KEY : string := "__GLOBAL_STATE__".

(** [type StateKey = string | string[]] *)
Inductive StateKey : Type :=
  | KString (s : string)
  | KArray (l : list string).

(** [initialData?: T | (() => T)]; an omitted argument is [undefined]. *)
Inductive InitialData : Type :=
  | InitValue (v : js_value)
  | Initializer (f : unit → js_value).

Definition omitted : InitialData := InitValue VUndefined.

(** [React.SetStateAction<T>] *)
Inductive SetStateAction : Type :=
  | Value (v : js_value)
  | Updater (f : js_value → js_value).

Inductive Exception : Type := Error (message : string).

Inductive Result (A : Type) : Type :=
  | Return (a : A)
  | Throw (e : Exception).
Arguments Return {A} a.
Arguments Throw {A} e.

(** [useQueryClient()]: the client of the nearest provider; throws without
    one. *)
Definition useQueryClient (context : option nat) : Result nat :=
  match context with
  | Some c => Return c
  | None => Throw (Error "No QueryClient set, use QueryClientProvider to set one")
  end.

(** [!key] for [key?: StateKey]: [undefined] and the empty string are falsy,
    every array is truthy. *)
Definition falsy (key : option StateKey) : bool :=
  match key with
  | None => true
  | Some (KString s) => bool_decide (s = "")
  | Some (KArray _) => false
  end.

(** [[GLOBAL_KEY, Array.isArray(key) ? key.join(".") : key]] *)
Definition theKey (key : StateKey) : list string :=
  [GLOBAL_KEY; match key with KArray l => Array_join "." l | KString s => s end].

(** What a call of [useGlobal] returns: the object [{ get }] or the tuple
    [[data, setData, refresh, reset]]. *)
Inductive UseGlobal : Type :=
  | Accessor (get : StateKey → World → js_value)
  | Hook (data : js_value)
         (setData : SetStateAction → World → World)
         (refresh : World → World)
         (reset : World → World).

Section UseGlobal.
Variable seedsExisting : bool.

(** The first lines of the function: the context client, else the imported
    singleton; [None] is a falsy [queryClient]. *)
Definition resolve (context globalQueryClient : option nat) : option nat :=
  match useQueryClient context with
  | Return c => Some c
  | Throw _ => globalQueryClient
  end.

(** [useGlobal(key, initialData)] called by component [cid].  [context] is the
    client of the enclosing provider, if any; [globalQueryClient] is the
    imported singleton.  The closures work on [queryClient], the client the
    first lines resolved; [useQuery(options)] is not handed that client and
    takes the one of the context, as [useQueryClient()] does, so in hook mode
    without a provider the library's error leaves the function. *)
Definition useGlobal (context globalQueryClient : option nat) (cid : nat)
    (key : option StateKey) (initialData : InitialData) (w : World)
    : Result (UseGlobal * World) :=
  match resolve context globalQueryClient with
  | None =>
      Throw (Error "[useGlobal] No QueryClient available. Ensure ReactQueryProvider or globalQueryClient is configured.")
  | Some queryClient =>
      match (if falsy key then None else key) with
      | None =>
          (* accessor mode *)
          let get key w :=
            let data := ReactQuery.getQueryData (theKey key) (deref queryClient w) in
            nullish data VNull in
          Return (Accessor get, w)
      | Some key =>
          (* hook mode *)
          let theInitialData :=
            match initialData with
            | Initializer f => f ()
            | InitValue v => v
            end in
          match useQueryClient context with
          | Throw e => Throw e
          | Return client =>
              let '(data, c) :=
                ReactQuery.useQuery seedsExisting
                  {| ReactQuery.queryKey := theKey key;
                     ReactQuery.enabled := false;
                     ReactQuery.queryFn := Some (λ _, theInitialData);
                     ReactQuery.initialData := theInitialData;
                     ReactQuery.staleTime := ReactQuery.Infinity |}
                  cid (deref client w) in
              let setData arg :=
                let val :=
                  match arg with
                  | Updater f => f data
                  | Value v => v
                  end in
                update queryClient (ReactQuery.setQueryData (theKey key) val) in
              let reset :=
                update queryClient (ReactQuery.removeQueries (theKey key)) in
              let refresh :=
                update queryClient (ReactQuery.invalidateQueries (theKey key)) in
              Return (Hook data setData refresh reset, update client (λ _, c) w)
          end
      end
  end.

End UseGlobal.

(** What the process can do next: evaluate the singleton module again (every
    island bundle does), render a component that calls [useGlobal], or call a
    closure that some earlier hook-mode call returned. *)
Inductive step (seedsExisting : bool) : World → World → Prop :=
  | step_module w :
      step seedsExisting w (queryClient w).2
  | step_render context g cid key initialData w u w' :
      useGlobal seedsExisting context g cid key initialData w = Return (u, w') →
      step seedsExisting w w'
  | step_setData context g cid key initialData w0 w0' data setData refresh reset arg w :
      useGlobal seedsExisting context g cid key initialData w0
        = Return (Hook data setData refresh reset, w0') →
      step seedsExisting w (setData arg w)
  | step_refresh context g cid key initialData w0 w0' data setData refresh reset w :
      useGlobal seedsExisting context g cid key initialData w0
        = Return (Hook data setData refresh reset, w0') →
      step seedsExisting w (refresh w)
  | step_reset context g cid key initialData w0 w0' data setData refresh reset w :
      useGlobal seedsExisting context g cid key initialData w0
        = Return (Hook data setData refresh reset, w0') →
      step seedsExisting w (reset w).

(** The steps that read: loading the module, rendering a component that
    calls [useGlobal] in either mode, and [refresh()].  They leave out the two
    that write, [setData] and [reset]. *)
Inductive read_step (seedsExisting : bool) : World → World → Prop :=
  | read_module w :
      read_step seedsExisting w (queryClient w).2
  | read_render context g cid key initialData w u w' :
      useGlobal seedsExisting context g cid key initialData w = Return (u, w') →
      read_step seedsExisting w w'
  | read_refresh context g cid key initialData w0 w0' data setData refresh reset w :
      useGlobal seedsExisting context g cid key initialData w0
        = Return (Hook data setData refresh reset, w0') →
      read_step seedsExisting w (refresh w).

(** The options literal of the hook-mode [useQuery] call. *)
Definition hookOptions (key : StateKey) (initialData : InitialData)
    : ReactQuery.UseQueryOptions :=
  let theInitialData :=
    match initialData with
    | Initializer f => f ()
    | InitValue v => v
    end in
  {| ReactQuery.queryKey := theKey key;
     ReactQuery.enabled := false;
     ReactQuery.queryFn := Some (λ _, theInitialData);
     ReactQuery.initialData := theInitialData;
     ReactQuery.staleTime := ReactQuery.Infinity |}.

(** The two errors: the one the library throws when a hook finds no client in
    the context, and the one of [useGlobal]'s own check. *)
Definition NoQueryClientSet : Exception :=
  Error "No QueryClient set, use QueryClientProvider to set one".

Definition NoQueryClientAvailable : Exception :=
  Error "[useGlobal] No QueryClient available. Ensure ReactQueryProvider or globalQueryClient is configured.".

(** The argument [setData] hands to [setQueryData]. *)
Definition written (data : js_value) (arg : SetStateAction) : js_value :=
  match arg with
  | Updater f => f data
  | Value v => v
  end.

(** The empty process, and the increment used in the examples. *)
Definition boot : World := {| astroQueryClient := None; heap := ∅ |}.

Definition increment (v : js_value) : js_value :=
  match v with
  | VNum n => VNum (n + 1)
  | _ => v
  end.

(** No query of the client has an enabled observer. *)
Definition inactive (c : ReactQuery.QueryClient) : Prop :=
  ∀ key q, ReactQuery.queries c !! key = Some q → ReactQuery.isActive q = false.

(** The same for every client on the heap. *)
Definition quiet (w : World) : Prop :=
  ∀ r c, heap w !! r = Some c → inactive c.

(** ** [withReactQuery] *)

(** What a component returns: text, a subtree under [ReactQueryProvider], or
    an element [<Type {...props} />] of a component type.  A component type is
    a function of its props with the two names React's tools read,
    [displayName] (possibly unset) and the function's own [name]. *)
Inductive Element (P : Type) : Type :=
  | Text (s : string)
  | ReactQueryProvider (children : Element P)
  | JSX (type : ComponentType P) (props : P)
with ComponentType (P : Type) : Type :=
  | FC (displayName : option string) (name : string) (call : P → Element P).
Arguments Text {P} s.
Arguments ReactQueryProvider {P} children.
Arguments JSX {P} type props.
Arguments FC {P} displayName name call.

Definition displayName {P} (c : ComponentType P) : option string :=
  match c with FC d _ _ => d end.

Definition name {P} (c : ComponentType P) : string :=
  match c with FC _ n _ => n end.

Definition call {P} (c : ComponentType P) : P → Element P :=
  match c with FC _ _ f => f end.

(** [a || b] where [a] is a string or [undefined]: the empty string is
    falsy. *)
Definition or_else (a : option string) (b : string) : string :=
  match a with
  | Some s => if bool_decide (s = "") then b else s
  | None => b
  end.

(** The name [withReactQuery] wraps:
    [WrappedComponent.displayName || WrappedComponent.name || "Component"]. *)
Definition wrappedName {P} (WrappedComponent : ComponentType P) : string :=
  or_else (Some (or_else (displayName WrappedComponent) (name WrappedComponent)))
    "Component".

(** [withReactQuery(WrappedComponent)]: the arrow function [WithReactQuery],
    which takes that name from the constant it is assigned to, with its
    [displayName] set. *)
Definition withReactQuery {P} (WrappedComponent : ComponentType P)
    : ComponentType P :=
  let WithReactQuery props :=
    ReactQueryProvider (JSX WrappedComponent props) in
  FC (Some ("withReactQuery(" +:+ wrappedName WrappedComponent +:+ ")"))
     "WithReactQuery" WithReactQuery.

(** The separator of [theKey], and whether a string contains a character. *)
Definition separator : ascii := "."%char.

Fixpoint contains (c : ascii) (s : string) : bool :=
  match s with
  | EmptyString => false
  | String a s' => if Ascii.eqb a c then true else contains c s'
  end.

(** No query of the client is fetching. *)
Definition idle (c : ReactQuery.QueryClient) : Prop :=
  ∀ key q, ReactQuery.queries c !! key = Some q →
    ReactQuery.state_fetchStatus q = ReactQuery.Idle.

(** The same for every client on the heap. *)
Definition calm (w : World) : Prop :=
  ∀ r c, heap w !! r = Some c → idle c.

(** Worlds of the scenarios: the process right after the singleton module
    was loaded; the same after component 1 rendered
    [useGlobal("THEME", "light")] under a provider of the singleton's client,
    and after component 2 then rendered [useGlobal("USER", "ann")]; and a
    process whose client also holds a query of the application's own,
    [["todos"]]. *)
Definition loaded : World := (queryClient boot).2.

Definition themeLight : World :=
  update 0 (λ _, (ReactQuery.useQuery true
    (hookOptions (KString "THEME") (InitValue (VStr "light"))) 1
    (deref 0 loaded)).2) loaded.

Definition themeAndUser : World :=
  update 0 (λ _, (ReactQuery.useQuery true
    (hookOptions (KString "USER") (InitValue (VStr "ann"))) 2
    (deref 0 themeLight)).2) themeLight.

Definition withTodos : World :=
  {| astroQueryClient := Some 0;
     heap := {[ 0 := {| ReactQuery.queries :=
       {[ ["todos"] := ReactQuery.new_Query None (VStr "milk") ]} |} ]} |}.

(** * Properties *)

(** ** The heap *)

Lemma deref_update_eq r f w : deref r (update r f w) = f (deref r w).
Proof. unfold deref, update; simpl. by rewrite lookup_insert_eq. Qed.

Lemma deref_update_ne r r' f w : r ≠ r' → deref r' (update r f w) = deref r' w.
Proof. intros Hne. unfold deref, update; simpl. by rewrite lookup_insert_ne. Qed.

Lemma astroQueryClient_update r f w :
  astroQueryClient (update r f w) = astroQueryClient w.
Proof. reflexivity. Qed.

(** ** The cache library *)

Module ReactQueryFacts.
Import ReactQuery.

Lemma state_data_dispatch_success d m q : state_data (dispatch (ActSuccess d m) q) = d.
Proof. reflexivity. Qed.

Lemma getQueryData_setQueryData key v c :
  v ≠ VUndefined → getQueryData key (setQueryData key v c) = v.
Proof.
  intros Hv. unfold getQueryData, setQueryData.
  destruct v; try congruence; simpl; by rewrite lookup_insert_eq.
Qed.

Lemma setQueryData_undefined key c : setQueryData key VUndefined c = c.
Proof. reflexivity. Qed.

Lemma lookup_setQueryData key v c :
  v ≠ VUndefined →
  queries (setQueryData key v c) !! key
    = Some (dispatch (ActSuccess v true) (build key None VUndefined c)).
Proof.
  intros Hv. unfold setQueryData.
  destruct v; try congruence; simpl; by rewrite lookup_insert_eq.
Qed.

Lemma matchQuery_refl key : matchQuery key key = true.
Proof. unfold matchQuery. by apply bool_decide_eq_true. Qed.

Lemma lookup_removeQueries key c : queries (removeQueries key c) !! key = None.
Proof.
  unfold removeQueries; simpl. apply map_lookup_filter_None. right.
  intros q _. simpl. rewrite matchQuery_refl. discriminate.
Qed.

Lemma lookup_removeQueries_other filters key c :
  matchQuery filters key = false →
  queries (removeQueries filters c) !! key = queries c !! key.
Proof.
  intros Hm. unfold removeQueries; simpl.
  destruct (queries c !! key) as [q|] eqn:Hq.
  - apply map_lookup_filter_Some. by split.
  - apply map_lookup_filter_None. by left.
Qed.

Lemma lookup_invalidateQueries filters key c :
  queries (invalidateQueries filters c) !! key
    = (λ q, if matchQuery filters key
            then (if isActive (invalidate q) then fetch None (invalidate q) else invalidate q)
            else q) <$> queries c !! key.
Proof.
  unfold invalidateQueries; simpl. rewrite map_lookup_imap.
  destruct (queries c !! key) as [q|]; simpl; [|done].
  by destruct (matchQuery filters key).
Qed.

Lemma state_data_invalidate q : state_data (invalidate q) = state_data q.
Proof. unfold invalidate. by destruct (state_isInvalidated q). Qed.

Lemma state_data_fetch options q : state_data (fetch options q) = state_data q.
Proof. reflexivity. Qed.

(** Invalidation never touches the data of any entry. *)
Lemma getQueryData_invalidateQueries filters key c :
  getQueryData key (invalidateQueries filters c) = getQueryData key c.
Proof.
  unfold getQueryData. rewrite lookup_invalidateQueries.
  destruct (queries c !! key) as [q|]; simpl; [|done].
  destruct (matchQuery filters key); [|done].
  destruct (isActive (invalidate q)); by rewrite ?state_data_fetch, state_data_invalidate.
Qed.

Lemma existsb_onQueryUpdate a obs :
  existsb o_enabled (onQueryUpdate a <$> obs) = existsb o_enabled obs.
Proof.
  induction obs as [|o obs IH]; [done|].
  rewrite fmap_cons. cbn [existsb onQueryUpdate o_enabled]. by rewrite IH.
Qed.

Lemma isActive_dispatch a q : isActive (dispatch a q) = isActive q.
Proof.
  unfold isActive, dispatch. simpl. rewrite existsb_onQueryUpdate.
  by destruct a.
Qed.

Lemma isActive_invalidate q : isActive (invalidate q) = isActive q.
Proof.
  unfold invalidate. destruct (state_isInvalidated q); [done|].
  apply isActive_dispatch.
Qed.

Lemma components_subscribe_self cid e fn obs :
  cid ∈ o_component <$> subscribe cid e fn obs.
Proof.
  unfold subscribe.
  destruct (list_find (λ o, o_component o = cid) obs) as [[i o]|] eqn:Hf.
  - apply list_find_Some in Hf as (Hi & Ho & _).
    rewrite list_fmap_insert. simpl.
    apply list_elem_of_lookup. exists i.
    apply list_lookup_insert_eq. rewrite length_fmap.
    by apply lookup_lt_Some in Hi.
  - rewrite fmap_app. simpl. apply elem_of_app. right. by apply list_elem_of_singleton.
Qed.

Lemma subscribe_self cid e fn obs :
  ∃ o, o ∈ subscribe cid e fn obs ∧ o_component o = cid ∧ o_enabled o = e
       ∧ o_queryFn o = fn.
Proof.
  unfold subscribe.
  destruct (list_find (λ o, o_component o = cid) obs) as [[i o]|] eqn:Hf.
  - apply list_find_Some in Hf as (Hi & Ho & _).
    exists {| o_component := cid; o_enabled := e; o_queryFn := fn;
              o_updates := o_updates o |}.
    split; [|repeat split].
    apply list_elem_of_lookup. exists i.
    apply list_lookup_insert_eq. by apply lookup_lt_Some in Hi.
  - exists {| o_component := cid; o_enabled := e; o_queryFn := fn; o_updates := [] |}.
    split; [|repeat split].
    apply elem_of_app. right. by apply list_elem_of_singleton.
Qed.

Lemma components_subscribe_other cid e fn obs c :
  c ∈ o_component <$> obs → c ∈ o_component <$> subscribe cid e fn obs.
Proof.
  intros Hc. unfold subscribe.
  destruct (list_find (λ o, o_component o = cid) obs) as [[i o]|] eqn:Hf.
  - apply list_find_Some in Hf as (Hi & Ho & _).
    rewrite list_fmap_insert. simpl.
    rewrite list_insert_id; [done|].
    rewrite list_lookup_fmap, Hi. simpl. by rewrite Ho.
  - rewrite fmap_app. apply elem_of_app. by left.
Qed.

Section Versions.
Variable seedsExisting : bool.

(** A disabled observer never fetches on mount: the data [useQuery] returns
    is the data of the query after [setOptions]. *)
Lemma useQuery_disabled opts cid c :
  enabled opts = false →
  (useQuery seedsExisting opts cid c).1
    = state_data (setOptions seedsExisting opts
        (build (queryKey opts) (queryFn opts) (initialData opts) c)).
Proof. intros He. unfold useQuery. rewrite He. reflexivity. Qed.

Lemma useQuery_lookup opts cid c :
  ∃ q, queries (useQuery seedsExisting opts cid c).2 !! queryKey opts = Some q
       ∧ state_data q = (useQuery seedsExisting opts cid c).1.
Proof.
  unfold useQuery; simpl. rewrite lookup_insert_eq. eauto.
Qed.

Lemma useQuery_lookup_other opts cid c key :
  key ≠ queryKey opts →
  queries (useQuery seedsExisting opts cid c).2 !! key = queries c !! key.
Proof. intros Hne. unfold useQuery; simpl. by rewrite lookup_insert_ne. Qed.

(** No entry: the query is created with the options' [initialData]. *)
Lemma useQuery_absent opts cid c :
  enabled opts = false →
  queries c !! queryKey opts = None →
  (useQuery seedsExisting opts cid c).1 = initialData opts.
Proof.
  intros He Hn. rewrite useQuery_disabled by done.
  unfold build. rewrite Hn. unfold setOptions, new_Query; simpl.
  destruct (initialData opts); reflexivity.
Qed.

(** An entry with defined data: [initialData] is ignored. *)
Lemma useQuery_present opts cid c q :
  enabled opts = false →
  queries c !! queryKey opts = Some q →
  state_data q ≠ VUndefined →
  (useQuery seedsExisting opts cid c).1 = state_data q.
Proof.
  intros He Hq Hd. rewrite useQuery_disabled by done.
  unfold build. rewrite Hq. unfold setOptions.
  destruct (state_data q); try congruence; reflexivity.
Qed.

(** An entry without data, and no [initialData] either. *)
Lemma useQuery_present_undefined opts cid c q :
  enabled opts = false →
  queries c !! queryKey opts = Some q →
  state_data q = VUndefined →
  initialData opts = VUndefined →
  (useQuery seedsExisting opts cid c).1 = VUndefined.
Proof.
  intros He Hq Hd Hi. rewrite useQuery_disabled by done.
  unfold build. rewrite Hq. unfold setOptions. rewrite Hd, Hi. reflexivity.
Qed.

(** An entry, and no [initialData]: the entry's data, defined or not. *)
Lemma useQuery_present_no_initial opts cid c q :
  enabled opts = false →
  queries c !! queryKey opts = Some q →
  initialData opts = VUndefined →
  (useQuery seedsExisting opts cid c).1 = state_data q.
Proof.
  intros He Hq Hi. rewrite useQuery_disabled by done.
  unfold build. rewrite Hq. unfold setOptions. rewrite Hi.
  by destruct (state_data q).
Qed.

Lemma components_setOptions opts q :
  o_component <$> observers (setOptions seedsExisting opts q)
    = o_component <$> observers q.
Proof.
  unfold setOptions.
  destruct (state_data q), (initialData opts), seedsExisting; try reflexivity;
    simpl; rewrite <- list_fmap_compose; reflexivity.
Qed.

Lemma options_queryFn_setOptions opts q :
  options_queryFn (setOptions seedsExisting opts q)
    = if seedsExisting then queryFn opts else options_queryFn q.
Proof.
  unfold setOptions.
  by destruct (state_data q), (initialData opts), seedsExisting.
Qed.

(** The entry a disabled [useQuery] leaves behind: the query after
    [setOptions], with the caller subscribed. *)
Lemma useQuery_disabled_lookup opts cid c :
  enabled opts = false →
  ∃ q, queries (useQuery seedsExisting opts cid c).2 !! queryKey opts = Some q
       ∧ state_data q = (useQuery seedsExisting opts cid c).1
       ∧ observers q = subscribe cid false (queryFn opts)
           (observers (setOptions seedsExisting opts
             (build (queryKey opts) (queryFn opts) (initialData opts) c)))
       ∧ options_queryFn q
         = if seedsExisting then queryFn opts
           else options_queryFn
                  (build (queryKey opts) (queryFn opts) (initialData opts) c).
Proof.
  intros He. unfold useQuery. rewrite He. simpl. rewrite lookup_insert_eq.
  eexists. split; [reflexivity|]. split; [reflexivity|]. split; [reflexivity|].
  apply options_queryFn_setOptions.
Qed.

End Versions.
End ReactQueryFacts.

(** ** [useGlobal]: the two modes *)

Section Modes.
Variable seedsExisting : bool.

Lemma useGlobal_throw context g cid key initialData w :
  resolve context g = None →
  ∃ e, useGlobal seedsExisting context g cid key initialData w = Throw e.
Proof. intros Hr. unfold useGlobal. rewrite Hr. eauto. Qed.

Lemma useGlobal_accessor context g cid key initialData w r :
  resolve context g = Some r →
  falsy key = true →
  useGlobal seedsExisting context g cid key initialData w
    = Return (Accessor (λ key w,
        nullish (ReactQuery.getQueryData (theKey key) (deref r w)) VNull), w).
Proof. intros Hr Hf. unfold useGlobal. rewrite Hr, Hf. reflexivity. Qed.

Lemma resolve_provider r g : resolve (Some r) g = Some r.
Proof. reflexivity. Qed.

Lemma useGlobal_hook context g cid k initialData w r :
  context = Some r →
  falsy (Some k) = false →
  useGlobal seedsExisting context g cid (Some k) initialData w
    = let res := ReactQuery.useQuery seedsExisting (hookOptions k initialData)
                   cid (deref r w) in
      Return (Hook res.1
                (λ arg, update r (ReactQuery.setQueryData (theKey k) (written res.1 arg)))
                (update r (ReactQuery.invalidateQueries (theKey k)))
                (update r (ReactQuery.removeQueries (theKey k))),
              update r (λ _, res.2) w).
Proof.
  intros -> Hf. unfold useGlobal. rewrite resolve_provider, Hf.
  unfold hookOptions. cbn [useQueryClient].
  destruct (ReactQuery.useQuery _ _ _ _) as [data c]. reflexivity.
Qed.

(** Hook mode needs a provider: without one the library's error leaves the
    function, whether or not the singleton is there. *)
Lemma useGlobal_hook_outside g cid k initialData w r :
  g = Some r →
  falsy (Some k) = false →
  useGlobal seedsExisting None g cid (Some k) initialData w = Throw NoQueryClientSet.
Proof. intros -> Hf. unfold useGlobal. simpl resolve. rewrite Hf. reflexivity. Qed.

(** A call that returned the tuple was a hook-mode call under a provider: it
    resolved the provider's client and its key was truthy. *)
Lemma useGlobal_Hook_inv context g cid key initialData w data setData refresh reset w' :
  useGlobal seedsExisting context g cid key initialData w
    = Return (Hook data setData refresh reset, w') →
  ∃ r k, resolve context g = Some r ∧ key = Some k ∧ falsy (Some k) = false ∧
    let res := ReactQuery.useQuery seedsExisting (hookOptions k initialData)
                 cid (deref r w) in
    data = res.1 ∧
    setData = (λ arg, update r (ReactQuery.setQueryData (theKey k) (written res.1 arg))) ∧
    refresh = update r (ReactQuery.invalidateQueries (theKey k)) ∧
    reset = update r (ReactQuery.removeQueries (theKey k)) ∧
    w' = update r (λ _, res.2) w.
Proof.
  intros H. destruct (resolve context g) as [r|] eqn:Hr.
  - destruct (falsy key) eqn:Hf.
    + rewrite (useGlobal_accessor _ _ _ _ _ _ r) in H by done. discriminate.
    + destruct key as [k|]; [|discriminate].
      destruct context as [c|].
      * injection Hr as ->.
        rewrite (useGlobal_hook _ _ _ _ _ _ r) in H by done.
        simpl in H. injection H as Hd Hsd Hrf Hrs Hw.
        exists r, k. simpl. by repeat split.
      * rewrite (useGlobal_hook_outside _ _ _ _ _ r) in H by done. discriminate.
  - destruct (useGlobal_throw context g cid key initialData w Hr) as [e He].
    congruence.
Qed.

Lemma useGlobal_Hook_provider context g cid key initialData w data setData refresh
    reset w' r :
  useGlobal seedsExisting context g cid key initialData w
    = Return (Hook data setData refresh reset, w') →
  resolve context g = Some r →
  context = Some r.
Proof.
  intros H Hr. destruct context as [c|]; [by injection Hr as ->|].
  destruct (useGlobal_Hook_inv _ _ _ _ _ _ _ _ _ _ _ H) as (_ & k & _ & -> & Hf & _).
  rewrite (useGlobal_hook_outside _ _ _ _ _ r) in H by done. discriminate.
Qed.

Lemma useGlobal_Accessor_inv context g cid key initialData w get w' :
  useGlobal seedsExisting context g cid key initialData w
    = Return (Accessor get, w') →
  ∃ r, resolve context g = Some r ∧ falsy key = true ∧ w' = w ∧
    get = (λ key w, nullish (ReactQuery.getQueryData (theKey key) (deref r w)) VNull).
Proof.
  intros H. destruct (resolve context g) as [r|] eqn:Hr.
  - destruct (falsy key) eqn:Hf.
    + rewrite (useGlobal_accessor _ _ _ _ _ _ r) in H by done.
      injection H as Hget Hw. by exists r.
    + destruct key as [k|]; [|discriminate].
      destruct context as [c|].
      * rewrite (useGlobal_hook _ _ _ _ _ _ c) in H by done. discriminate.
      * rewrite (useGlobal_hook_outside _ _ _ _ _ r) in H by done. discriminate.
  - destruct (useGlobal_throw context g cid key initialData w Hr) as [e He].
    congruence.
Qed.

Lemma hookOptions_enabled k initialData :
  ReactQuery.enabled (hookOptions k initialData) = false.
Proof. reflexivity. Qed.

Lemma hookOptions_queryKey k initialData :
  ReactQuery.queryKey (hookOptions k initialData) = theKey k.
Proof. reflexivity. Qed.

(** What a hook-mode read returns, by the state of the entry. *)
Lemma hook_read_present context g cid k initialData w r q :
  context = Some r →
  falsy (Some k) = false →
  ReactQuery.queries (deref r w) !! theKey k = Some q →
  ReactQuery.state_data q ≠ VUndefined →
  ∃ setData refresh reset w',
    useGlobal seedsExisting context g cid (Some k) initialData w
      = Return (Hook (ReactQuery.state_data q) setData refresh reset, w').
Proof.
  intros Hr Hf Hq Hd. rewrite (useGlobal_hook _ _ _ _ _ _ r) by done. cbv zeta.
  rewrite (ReactQueryFacts.useQuery_present _ _ _ _ q) by done. eauto.
Qed.

Lemma hook_read_absent context g cid k initialData w r :
  context = Some r →
  falsy (Some k) = false →
  ReactQuery.queries (deref r w) !! theKey k = None →
  ∃ setData refresh reset w',
    useGlobal seedsExisting context g cid (Some k) initialData w
      = Return (Hook (ReactQuery.initialData (hookOptions k initialData))
                  setData refresh reset, w')
    ∧ ∃ q, ReactQuery.queries (deref r w') !! theKey k = Some q
           ∧ ReactQuery.state_data q = ReactQuery.initialData (hookOptions k initialData).
Proof.
  intros Hr Hf Hq. rewrite (useGlobal_hook _ _ _ _ _ _ r) by done. cbv zeta.
  do 4 eexists. split.
  - rewrite ReactQueryFacts.useQuery_absent by done. reflexivity.
  - rewrite deref_update_eq.
    destruct (ReactQueryFacts.useQuery_lookup seedsExisting
                (hookOptions k initialData) cid (deref r w)) as (q & Hl & Hd).
    exists q. split; [done|].
    rewrite Hd. by apply ReactQueryFacts.useQuery_absent.
Qed.

(** C2: under a provider, a hook-mode [useGlobal(k, i)] with no prior entry
    seeds the entry and returns [i]; a second hook-mode [useGlobal(k)]
    without initial value, by any caller under a provider of the same client,
    returns the same [i], read from the one entry under the key, which both
    callers observe. *)
Theorem seeded_entry_is_shared g cid k i w r :
  falsy (Some k) = false →
  ReactQuery.queries (deref r w) !! theKey k = None →
  ∃ setData refresh reset w1,
    useGlobal seedsExisting (Some r) g cid (Some k) (InitValue i) w
      = Return (Hook i setData refresh reset, w1)
    ∧ (∃ q, ReactQuery.queries (deref r w1) !! theKey k = Some q
            ∧ ReactQuery.state_data q = i)
    ∧ ∀ g' cid',
        ∃ setData' refresh' reset' w2,
          useGlobal seedsExisting (Some r) g' cid' (Some k) omitted w1
            = Return (Hook i setData' refresh' reset', w2)
          ∧ ∃ q, ReactQuery.queries (deref r w2) !! theKey k = Some q
                 ∧ ReactQuery.state_data q = i
                 ∧ cid ∈ ReactQuery.o_component <$> ReactQuery.observers q
                 ∧ cid' ∈ ReactQuery.o_component <$> ReactQuery.observers q.
Proof.
  intros Hf Hn.
  rewrite (useGlobal_hook _ _ _ _ _ _ r) by done. cbv zeta.
  set (o1 := hookOptions k (InitValue i)).
  assert (Hd1 : (ReactQuery.useQuery seedsExisting o1 cid (deref r w)).1 = i)
    by by apply ReactQueryFacts.useQuery_absent.
  destruct (ReactQueryFacts.useQuery_disabled_lookup seedsExisting o1 cid (deref r w))
    as (q1 & Hl1 & Hq1 & Hobs1 & _); [done|].
  rewrite Hd1 in Hq1 |- *.
  do 4 eexists. split; [reflexivity|]. split.
  { rewrite deref_update_eq. eauto. }
  intros g' cid'.
  rewrite (useGlobal_hook _ _ _ _ _ _ r) by done. cbv zeta.
  set (w1 := update r _ w).
  assert (Hw1 : ReactQuery.queries (deref r w1) !! theKey k = Some q1).
  { unfold w1. rewrite deref_update_eq. exact Hl1. }
  set (o2 := hookOptions k omitted).
  assert (Hd2 : (ReactQuery.useQuery seedsExisting o2 cid' (deref r w1)).1 = i).
  { rewrite (ReactQueryFacts.useQuery_present_no_initial _ _ _ _ q1); done. }
  destruct (ReactQueryFacts.useQuery_disabled_lookup seedsExisting o2 cid' (deref r w1))
    as (q2 & Hl2 & Hq2 & Hobs2 & _); [done|].
  rewrite Hd2 in Hq2 |- *.
  do 4 eexists. split; [reflexivity|].
  rewrite deref_update_eq. exists q2. split; [done|]. split; [done|].
  rewrite Hobs2. unfold ReactQuery.build. simpl. rewrite Hw1. split.
  - apply ReactQueryFacts.components_subscribe_other.
    rewrite ReactQueryFacts.components_setOptions, Hobs1.
    apply ReactQueryFacts.components_subscribe_self.
  - apply ReactQueryFacts.components_subscribe_self.
Qed.

(** C3 (the code at the failing input): under a provider of a fresh cache,
    hook-mode [useGlobal("K")] without initial value returns [undefined],
    which is not [null]. *)
Theorem unseeded_hook_returns_undefined :
  let '(c, w) := queryClient boot in
  ∃ setData refresh reset w',
    useGlobal seedsExisting (Some c) (Some c) 1 (Some (KString "K")) omitted w
      = Return (Hook VUndefined setData refresh reset, w')
    ∧ VUndefined ≠ VNull.
Proof.
  assert (H : queryClient boot = (0, {| astroQueryClient := Some 0;
            heap := <[0 := ReactQuery.new_QueryClient]> ∅ |})) by reflexivity.
  rewrite H.
  edestruct (hook_read_absent (Some 0) (Some 0) 1 (KString "K") omitted
    {| astroQueryClient := Some 0; heap := <[0 := ReactQuery.new_QueryClient]> ∅ |} 0)
    as (sd & rf & rs & w' & Hu & _); [done | done | done |].
  exists sd, rf, rs, w'. split; [exact Hu | discriminate].
Qed.

(** The same for every key and cache: hook mode without initial value and
    without an entry returns [undefined]. *)
Lemma unseeded_hook_undefined context g cid k w r :
  context = Some r →
  falsy (Some k) = false →
  ReactQuery.queries (deref r w) !! theKey k = None →
  ∃ setData refresh reset w',
    useGlobal seedsExisting context g cid (Some k) omitted w
      = Return (Hook VUndefined setData refresh reset, w').
Proof.
  intros Hr Hf Hn.
  destruct (hook_read_absent context g cid k omitted w r Hr Hf Hn)
    as (sd & rf & rs & w' & Hu & _). eauto.
Qed.

(** The value [setData] writes for an updater is the updater applied to the
    [data] of the render that created the closure, whatever the cache holds at
    the time of the call. *)
Lemma setData_updater_uses_render_data context g cid k initialData w data setData
    refresh reset w1 r f w2 :
  useGlobal seedsExisting context g cid (Some k) initialData w
    = Return (Hook data setData refresh reset, w1) →
  resolve context g = Some r →
  f data ≠ VUndefined →
  ReactQuery.getQueryData (theKey k) (deref r (setData (Updater f) w2)) = f data.
Proof.
  intros H Hr Hv.
  destruct (useGlobal_Hook_inv _ _ _ _ _ _ _ _ _ _ _ H)
    as (r0 & k0 & Hr0 & Hk & Hf & Hd & -> & _ & _ & _).
  assert (r0 = r) as -> by congruence. injection Hk as <-.
  cbv zeta in Hd. rewrite <- Hd. cbn [written].
  rewrite deref_update_eq. by apply ReactQueryFacts.getQueryData_setQueryData.
Qed.

(** C4 (the code at the failing input): under a provider, [const [count,
    setCount] = useGlobal("COUNT", 0)], then [setCount(c => c + 1)] twice from
    the same render.  The entry holds 1 before the second write, and 1 after
    it: the updater was applied to the render's 0, not to the stored 1. *)
Theorem updater_sees_render_data :
  let '(c, w) := queryClient boot in
  ∃ setData refresh reset w1,
    useGlobal seedsExisting (Some c) (Some c) 1 (Some (KString "COUNT"))
        (InitValue (VNum 0)) w
      = Return (Hook (VNum 0) setData refresh reset, w1)
    ∧ ReactQuery.getQueryData (theKey (KString "COUNT"))
        (deref c (setData (Updater increment) w1)) = VNum 1
    ∧ ReactQuery.getQueryData (theKey (KString "COUNT"))
        (deref c (setData (Updater increment) (setData (Updater increment) w1)))
      = VNum 1
    ∧ increment (VNum 1) = VNum 2.
Proof.
  assert (H : queryClient boot = (0, {| astroQueryClient := Some 0;
            heap := <[0 := ReactQuery.new_QueryClient]> ∅ |})) by reflexivity.
  rewrite H.
  edestruct (hook_read_absent (Some 0) (Some 0) 1 (KString "COUNT") (InitValue (VNum 0))
    {| astroQueryClient := Some 0; heap := <[0 := ReactQuery.new_QueryClient]> ∅ |} 0)
    as (sd & rf & rs & w' & Hu & _); [done | done | done |].
  simpl in Hu. exists sd, rf, rs, w'. split; [exact Hu|].
  split; [|split; [|reflexivity]].
  - by rewrite (setData_updater_uses_render_data _ _ _ _ _ _ _ _ _ _ _ 0 _ _ Hu).
  - by rewrite (setData_updater_uses_render_data _ _ _ _ _ _ _ _ _ _ _ 0 _ _ Hu).
Qed.

(** C5 (as amended): the key encoding joins a sequence with ["."] and puts the
    namespace token in front; for every sequence, accessor-mode [get] of the
    sequence and of its joined string read the same entry; and when the joined
    string is not empty, the hook-mode calls for the two forms are the same
    call: same entry, same result, same closures. *)
Theorem sequence_key_is_joined_key l :
  theKey (KArray l) = [GLOBAL_KEY; Array_join "." l]
  ∧ theKey (KArray l) = theKey (KString (Array_join "." l))
  ∧ (∀ context g cid key initialData w get w' w2,
       useGlobal seedsExisting context g cid key initialData w
         = Return (Accessor get, w') →
       get (KArray l) w2 = get (KString (Array_join "." l)) w2)
  ∧ (Array_join "." l ≠ "" →
     ∀ context g cid initialData w,
       useGlobal seedsExisting context g cid (Some (KArray l)) initialData w
       = useGlobal seedsExisting context g cid
           (Some (KString (Array_join "." l))) initialData w).
Proof.
  split; [reflexivity|]. split; [reflexivity|]. split.
  - intros context g cid key initialData w get w' w2 H.
    destruct (useGlobal_Accessor_inv _ _ _ _ _ _ _ _ H) as (r & _ & _ & _ & ->).
    reflexivity.
  - intros Hne context g cid initialData w.
    assert (Hf : falsy (Some (KString (Array_join "." l))) = false).
    { simpl. by apply bool_decide_eq_false. }
    destruct context as [r|]; [|destruct g as [r|]].
    + by rewrite !(useGlobal_hook _ _ _ _ _ _ r).
    + by rewrite !(useGlobal_hook_outside _ _ _ _ _ r).
    + reflexivity.
Qed.

(** C6: [reset()] removes the entry of its key, and a fresh hook-mode call for
    that key with initial value [i2], under a provider of the same client,
    then returns [i2], whatever was stored before. *)
Theorem reset_then_reseed context g cid k initialData w data setData refresh reset w1 r :
  useGlobal seedsExisting context g cid (Some k) initialData w
    = Return (Hook data setData refresh reset, w1) →
  resolve context g = Some r →
  ∀ w2,
    ReactQuery.queries (deref r (reset w2)) !! theKey k = None
    ∧ ∀ g' cid' i2,
        ∃ setData' refresh' reset' w3,
          useGlobal seedsExisting (Some r) g' cid' (Some k) (InitValue i2) (reset w2)
            = Return (Hook i2 setData' refresh' reset', w3).
Proof.
  intros H Hr w2.
  destruct (useGlobal_Hook_inv _ _ _ _ _ _ _ _ _ _ _ H)
    as (r0 & k0 & Hr0 & Hk & Hf & _ & _ & _ & -> & _).
  assert (r0 = r) as -> by congruence. injection Hk as <-.
  assert (Hn : ReactQuery.queries
      (deref r (update r (ReactQuery.removeQueries (theKey k)) w2)) !! theKey k = None).
  { rewrite deref_update_eq. apply ReactQueryFacts.lookup_removeQueries. }
  split; [exact Hn|].
  intros g' cid' i2.
  destruct (hook_read_absent (Some r) g' cid' k (InitValue i2) _ r eq_refl Hf Hn)
    as (sd & rf & rs & w3 & Hu & _).
  simpl in Hu. eauto.
Qed.

(** C10: with the empty string as key, [useGlobal] returns the accessor
    object, not the tuple; with the empty array as key it takes hook mode: it
    never returns the accessor object, under a provider it returns the tuple,
    and without one the hook's error leaves it.  The dispatch is on the
    falsiness of the key, and a supplied [""] is falsy. *)
Theorem empty_string_key_is_accessor_mode context g cid initialData w r :
  resolve context g = Some r →
  falsy (Some (KString "")) = true
  ∧ falsy (Some (KArray [])) = false
  ∧ (∃ get,
       useGlobal seedsExisting context g cid (Some (KString "")) initialData w
         = Return (Accessor get, w))
  ∧ (∀ get w',
       useGlobal seedsExisting context g cid (Some (KArray [])) initialData w
         ≠ Return (Accessor get, w'))
  ∧ (context = Some r →
     ∃ data setData refresh reset w',
       useGlobal seedsExisting context g cid (Some (KArray [])) initialData w
         = Return (Hook data setData refresh reset, w'))
  ∧ (context = None →
     useGlobal seedsExisting context g cid (Some (KArray [])) initialData w
       = Throw NoQueryClientSet).
Proof.
  intros Hr. split; [reflexivity|]. split; [reflexivity|]. split; [|split; [|split]].
  - rewrite (useGlobal_accessor _ _ _ _ _ _ r) by done. eauto.
  - intros get w' H.
    by destruct (useGlobal_Accessor_inv _ _ _ _ _ _ _ _ H) as (_ & _ & ? & _).
  - intros Hc. rewrite (useGlobal_hook _ _ _ _ _ _ r) by done. cbv zeta. eauto 10.
  - intros ->. unfold resolve in Hr. simpl in Hr. by apply (useGlobal_hook_outside _ _ _ _ _ r).
Qed.

(** ** Resolving the client *)

Lemma resolve_None context g : resolve context g = None ↔ context = None ∧ g = None.
Proof.
  unfold resolve, useQueryClient. destruct context as [c|]; simpl.
  - split; [discriminate | intros [? _]; discriminate].
  - split; [by intros -> | by intros [_ ->]].
Qed.

(** [useGlobal]'s own error is thrown exactly when nothing was resolved; the
    only other error is the library's, in hook mode without a provider. *)
Lemma useGlobal_Throw_inv context g cid key initialData w e :
  useGlobal seedsExisting context g cid key initialData w = Throw e →
  (resolve context g = None ∧ e = NoQueryClientAvailable)
  ∨ (∃ r k, context = None ∧ g = Some r ∧ key = Some k ∧ falsy key = false
            ∧ e = NoQueryClientSet).
Proof.
  intros He. destruct (resolve context g) as [r|] eqn:Hr.
  - right. destruct (falsy key) eqn:Hf.
    + rewrite (useGlobal_accessor _ _ _ _ _ _ r) in He by done. discriminate.
    + destruct key as [k|]; [|discriminate].
      destruct context as [c|].
      * rewrite (useGlobal_hook _ _ _ _ _ _ c) in He by done. discriminate.
      * unfold resolve in Hr. simpl in Hr. subst g.
        rewrite (useGlobal_hook_outside _ _ _ _ _ r) in He by done.
        injection He as <-. by exists r, k.
  - left. split; [done|]. unfold useGlobal in He. rewrite Hr in He.
    by injection He as <-.
Qed.

Lemma useGlobal_Throw_iff context g cid key initialData w :
  useGlobal seedsExisting context g cid key initialData w = Throw NoQueryClientAvailable
  ↔ resolve context g = None.
Proof.
  split.
  - intros He. apply useGlobal_Throw_inv in He as [[Hr _] | (r & k & _ & _ & _ & _ & He)].
    + exact Hr.
    + discriminate.
  - intros Hr. unfold useGlobal. by rewrite Hr.
Qed.

(** The singleton module always exports a reference. *)
Lemma queryClient_slot w : astroQueryClient (queryClient w).2 = Some (queryClient w).1.
Proof. unfold queryClient. by destruct (astroQueryClient w) eqn:H. Qed.

(** C7: [useGlobal] throws its configuration error exactly when neither the
    context nor the imported singleton gives a client; with the singleton the
    module [react-query-client] exports, that error is never thrown. *)
Theorem configuration_error_unreachable :
  (∀ context g cid key initialData w,
     useGlobal seedsExisting context g cid key initialData w
       = Throw NoQueryClientAvailable
     ↔ context = None ∧ g = None)
  ∧ (∀ w0 context cid key initialData w,
       useGlobal seedsExisting context (Some (queryClient w0).1)
         cid key initialData w ≠ Throw NoQueryClientAvailable).
Proof.
  split.
  - intros. rewrite useGlobal_Throw_iff. apply resolve_None.
  - intros w0 context cid key initialData w Hu.
    apply useGlobal_Throw_iff, resolve_None in Hu as [_ ?]. discriminate.
Qed.

(** ** The singleton over the life of the process *)

Lemma queryClient_idempotent w :
  queryClient (queryClient w).2 = ((queryClient w).1, (queryClient w).2).
Proof.
  unfold queryClient at 1. rewrite queryClient_slot. reflexivity.
Qed.

Lemma queryClient_of_slot w c : astroQueryClient w = Some c → queryClient w = (c, w).
Proof. intros H. unfold queryClient. by rewrite H. Qed.

Lemma is_Some_heap_update r f w r' :
  is_Some (heap w !! r') → is_Some (heap (update r f w) !! r').
Proof.
  intros H. unfold update; simpl. destruct (decide (r = r')) as [->|Hne].
  - rewrite lookup_insert_eq. eauto.
  - by rewrite lookup_insert_ne.
Qed.

(** No step clears [globalThis.__astroQueryClient], and no step takes an
    object off the heap. *)
Lemma step_keeps_singleton w w' c :
  step seedsExisting w w' →
  astroQueryClient w = Some c →
  astroQueryClient w' = Some c.
Proof.
  intros Hs Hc. destruct Hs as [w | ? ? ? ? ? w u w' H | ? ? ? ? ? ? ? ? ? ? ? arg w H
    | ? ? ? ? ? ? ? ? ? ? ? w H | ? ? ? ? ? ? ? ? ? ? ? w H ].
  - by rewrite (queryClient_of_slot w c).
  - destruct u as [get | data sd rf rs].
    + by destruct (useGlobal_Accessor_inv _ _ _ _ _ _ _ _ H) as (_ & _ & _ & -> & _).
    + by destruct (useGlobal_Hook_inv _ _ _ _ _ _ _ _ _ _ _ H)
        as (r & k & _ & _ & _ & _ & _ & _ & _ & ->).
  - by destruct (useGlobal_Hook_inv _ _ _ _ _ _ _ _ _ _ _ H)
      as (r & k & _ & _ & _ & _ & -> & _ & _ & _).
  - by destruct (useGlobal_Hook_inv _ _ _ _ _ _ _ _ _ _ _ H)
      as (r & k & _ & _ & _ & _ & _ & -> & _ & _).
  - by destruct (useGlobal_Hook_inv _ _ _ _ _ _ _ _ _ _ _ H)
      as (r & k & _ & _ & _ & _ & _ & _ & -> & _).
Qed.

Lemma step_keeps_objects w w' r' :
  step seedsExisting w w' →
  is_Some (heap w !! r') →
  is_Some (heap w' !! r').
Proof.
  intros Hs Hc. destruct Hs as [w | ? ? ? ? ? w u w' H | ? ? ? ? ? ? ? ? ? ? ? arg w H
    | ? ? ? ? ? ? ? ? ? ? ? w H | ? ? ? ? ? ? ? ? ? ? ? w H ].
  - unfold queryClient. destruct (astroQueryClient w); [done|]. simpl.
    destruct (decide (fresh (dom (heap w)) = r')) as [->|Hne].
    + rewrite lookup_insert_eq. eauto.
    + by rewrite lookup_insert_ne.
  - destruct u as [get | data sd rf rs].
    + by destruct (useGlobal_Accessor_inv _ _ _ _ _ _ _ _ H) as (_ & _ & _ & -> & _).
    + destruct (useGlobal_Hook_inv _ _ _ _ _ _ _ _ _ _ _ H)
        as (r & k & _ & _ & _ & _ & _ & _ & _ & ->).
      by apply is_Some_heap_update.
  - destruct (useGlobal_Hook_inv _ _ _ _ _ _ _ _ _ _ _ H)
      as (r & k & _ & _ & _ & _ & -> & _ & _ & _).
    by apply is_Some_heap_update.
  - destruct (useGlobal_Hook_inv _ _ _ _ _ _ _ _ _ _ _ H)
      as (r & k & _ & _ & _ & _ & _ & -> & _ & _).
    by apply is_Some_heap_update.
  - destruct (useGlobal_Hook_inv _ _ _ _ _ _ _ _ _ _ _ H)
      as (r & k & _ & _ & _ & _ & _ & _ & -> & _).
    by apply is_Some_heap_update.
Qed.

Lemma steps_keep_singleton w w' c :
  rtc (step seedsExisting) w w' →
  astroQueryClient w = Some c ∧ is_Some (heap w !! c) →
  astroQueryClient w' = Some c ∧ is_Some (heap w' !! c).
Proof.
  induction 1 as [w | w w1 w' Hs _ IH]; [done|].
  intros [Hc Hh]. apply IH. split.
  - by apply (step_keeps_singleton w).
  - by apply (step_keeps_objects w).
Qed.

(** C8: the first access to the registry constructs the cache instance, a
    fresh empty [QueryClient]; every later access in the process, after
    whatever renders and closure calls, returns that same instance and changes
    nothing, and the instance is still on the heap. *)
Theorem registry_access_idempotent w w' :
  astroQueryClient w = None →
  rtc (step seedsExisting) (queryClient w).2 w' →
  ((queryClient w).1 ∉ dom (heap w))
  ∧ heap (queryClient w).2 !! (queryClient w).1 = Some ReactQuery.new_QueryClient
  ∧ queryClient (queryClient w).2 = ((queryClient w).1, (queryClient w).2)
  ∧ queryClient w' = ((queryClient w).1, w')
  ∧ is_Some (heap w' !! (queryClient w).1).
Proof.
  intros Hn Hsteps.
  assert (Hq : queryClient w = (fresh (dom (heap w)),
            {| astroQueryClient := Some (fresh (dom (heap w)));
               heap := <[fresh (dom (heap w)) := ReactQuery.new_QueryClient]> (heap w) |})).
  { unfold queryClient. by rewrite Hn. }
  split; [rewrite Hq; apply is_fresh|].
  assert (Hh : heap (queryClient w).2 !! (queryClient w).1
               = Some ReactQuery.new_QueryClient).
  { rewrite Hq. simpl. apply lookup_insert_eq. }
  split; [exact Hh|]. split; [apply queryClient_idempotent|].
  destruct (steps_keep_singleton _ _ (queryClient w).1 Hsteps) as [Hc Hs].
  { split; [apply queryClient_slot | rewrite Hh; eauto]. }
  split; [by apply queryClient_of_slot | exact Hs].
Qed.

(** ** Reads after a write *)

Lemma read_step_step w w' : read_step seedsExisting w w' → step seedsExisting w w'.
Proof.
  intros [w0 | ? ? ? ? ? ? ? ? H | ? ? ? ? ? ? ? ? ? ? ? w0 H].
  - apply step_module.
  - by eapply step_render.
  - by eapply step_refresh.
Qed.

Lemma getQueryData_defined key c v :
  ReactQuery.getQueryData key c = v →
  v ≠ VUndefined →
  ∃ q, ReactQuery.queries c !! key = Some q ∧ ReactQuery.state_data q = v.
Proof.
  unfold ReactQuery.getQueryData. intros H Hv.
  destruct (ReactQuery.queries c !! key) as [q|]; [eauto | congruence].
Qed.

(** A disabled [useQuery] leaves defined data of every entry as it is. *)
Lemma getQueryData_useQuery opts cid c key v :
  ReactQuery.enabled opts = false →
  ReactQuery.getQueryData key c = v →
  v ≠ VUndefined →
  ReactQuery.getQueryData key (ReactQuery.useQuery seedsExisting opts cid c).2 = v.
Proof.
  intros He Hg Hv. destruct (getQueryData_defined _ _ _ Hg Hv) as (q & Hq & Hd).
  unfold ReactQuery.getQueryData at 1.
  destruct (decide (key = ReactQuery.queryKey opts)) as [->|Hne].
  - destruct (ReactQueryFacts.useQuery_lookup seedsExisting opts cid c) as (q' & -> & ->).
    rewrite (ReactQueryFacts.useQuery_present _ _ _ _ q); congruence.
  - rewrite ReactQueryFacts.useQuery_lookup_other by done. by rewrite Hq.
Qed.

(** No reading step changes a defined value, under any key of any client on
    the heap. *)
Lemma read_step_keeps_value r key v w w' :
  v ≠ VUndefined →
  read_step seedsExisting w w' →
  is_Some (heap w !! r) ∧ ReactQuery.getQueryData key (deref r w) = v →
  is_Some (heap w' !! r) ∧ ReactQuery.getQueryData key (deref r w') = v.
Proof.
  intros Hv Hs [Hh Hg]. split.
  { eapply step_keeps_objects; [by apply read_step_step | done]. }
  destruct Hs as [w | ? ? ? ? ? w u w' H | ? ? ? ? ? ? ? ? ? ? ? w H].
  - unfold queryClient. destruct (astroQueryClient w); [done|].
    unfold deref in *. simpl. rewrite lookup_insert_ne; [done|].
    intros <-. apply elem_of_dom in Hh. by apply is_fresh in Hh.
  - destruct u as [get | data sd rf rs].
    + by destruct (useGlobal_Accessor_inv _ _ _ _ _ _ _ _ H) as (_ & _ & _ & -> & _).
    + destruct (useGlobal_Hook_inv _ _ _ _ _ _ _ _ _ _ _ H)
        as (r' & k' & _ & _ & _ & _ & _ & _ & _ & ->).
      destruct (decide (r' = r)) as [->|Hne].
      * rewrite deref_update_eq. by apply getQueryData_useQuery.
      * by rewrite deref_update_ne.
  - destruct (useGlobal_Hook_inv _ _ _ _ _ _ _ _ _ _ _ H)
      as (r' & k' & _ & _ & _ & _ & _ & -> & _ & _).
    destruct (decide (r' = r)) as [->|Hne].
    + by rewrite deref_update_eq, ReactQueryFacts.getQueryData_invalidateQueries.
    + by rewrite deref_update_ne.
Qed.

Lemma read_steps_keep_value r key v w w' :
  v ≠ VUndefined →
  rtc (read_step seedsExisting) w w' →
  is_Some (heap w !! r) ∧ ReactQuery.getQueryData key (deref r w) = v →
  is_Some (heap w' !! r) ∧ ReactQuery.getQueryData key (deref r w') = v.
Proof.
  intros Hv. induction 1 as [|w0 w1 w2 Hs _ IH]; [done|].
  intros H0. apply IH. by apply (read_step_keeps_value r key v w0).
Qed.

(** C1 (as amended): for every key [k] and every value [v] other than
    [undefined], after [setValue(v)] from a hook-mode [useGlobal(k)], every
    later hook-mode read of [k] under a provider of the same client, and every
    accessor-mode [get(k)] that resolves that client, returns [v], across any
    reads in between (renders in either mode, [refresh()], loads of the
    module). *)
Theorem setValue_visible context g cid k initialData w data setData refresh reset w1 r v
    w2 w3 :
  useGlobal seedsExisting context g cid (Some k) initialData w
    = Return (Hook data setData refresh reset, w1) →
  resolve context g = Some r →
  v ≠ VUndefined →
  rtc (read_step seedsExisting) (setData (Value v) w2) w3 →
  (∀ g' cid' initialData',
     ∃ setData' refresh' reset' w4,
       useGlobal seedsExisting (Some r) g' cid' (Some k) initialData' w3
       = Return (Hook v setData' refresh' reset', w4))
  ∧ (∀ context' g' cid' key' initialData' get w4, resolve context' g' = Some r →
       useGlobal seedsExisting context' g' cid' key' initialData' w3
         = Return (Accessor get, w4) →
       get k w4 = v).
Proof.
  intros H Hr Hv Hreads.
  destruct (useGlobal_Hook_inv _ _ _ _ _ _ _ _ _ _ _ H)
    as (r0 & k0 & Hr0 & Hk & Hf & _ & -> & _ & _ & _).
  assert (r0 = r) as -> by congruence. injection Hk as <-.
  cbn [written] in Hreads.
  destruct (read_steps_keep_value r (theKey k) v _ _ Hv Hreads) as [_ Hg].
  { split.
    - unfold update. simpl. rewrite lookup_insert_eq. eauto.
    - rewrite deref_update_eq. by apply ReactQueryFacts.getQueryData_setQueryData. }
  destruct (getQueryData_defined _ _ _ Hg Hv) as (q & Hq & Hd).
  split.
  - intros g' cid' initialData'.
    edestruct (hook_read_present (Some r) g' cid' k initialData' w3 r)
      as (sd & rf & rs & w4 & Hu); [done | done | exact Hq | congruence | ].
    rewrite Hd in Hu. eauto.
  - intros context' g' cid' key' initialData' get w4 Hr' Hacc.
    destruct (useGlobal_Accessor_inv _ _ _ _ _ _ _ _ Hacc) as (r1 & Hr1 & _ & -> & ->).
    assert (r1 = r) as -> by congruence.
    rewrite Hg. by destruct v.
Qed.

(** ** Invalidation *)

Lemma settle_idle q : ReactQuery.state_fetchStatus q = ReactQuery.Idle → ReactQuery.settle q = q.
Proof. intros H. unfold ReactQuery.settle. by rewrite H. Qed.

(** C9 (as amended): on an existing entry without an enabled observer,
    [refresh()] marks the entry as invalidated, calls the entry's observers
    when it was not marked already, and leaves the stored value of this and of
    every other entry unchanged; no fetch is started, so nothing settles later.
    The touch is a no-op because the hook's observer is disabled, while its
    options do set a fetch function, which returns the initial value. *)
Theorem refresh_touch context g cid k initialData w data setData refresh reset w1 r w2 q :
  useGlobal seedsExisting context g cid (Some k) initialData w
    = Return (Hook data setData refresh reset, w1) →
  resolve context g = Some r →
  ReactQuery.queries (deref r w2) !! theKey k = Some q →
  ReactQuery.isActive q = false →
  (∃ q', ReactQuery.queries (deref r (refresh w2)) !! theKey k = Some q'
     ∧ ReactQuery.state_data q' = ReactQuery.state_data q
     ∧ ReactQuery.state_isInvalidated q' = true
     ∧ ReactQuery.state_fetchStatus q' = ReactQuery.state_fetchStatus q
     ∧ (ReactQuery.state_isInvalidated q = false →
        ReactQuery.observers q'
          = ReactQuery.onQueryUpdate ReactQuery.ActInvalidate <$> ReactQuery.observers q)
     ∧ (ReactQuery.state_fetchStatus q = ReactQuery.Idle → ReactQuery.settle q' = q'))
  ∧ (∀ key, ReactQuery.getQueryData key (deref r (refresh w2))
            = ReactQuery.getQueryData key (deref r w2))
  ∧ (∃ q1 f o, ReactQuery.queries (deref r w1) !! theKey k = Some q1
       ∧ o ∈ ReactQuery.observers q1
       ∧ ReactQuery.o_component o = cid
       ∧ ReactQuery.o_enabled o = false
       ∧ ReactQuery.o_queryFn o = Some f
       ∧ f () = ReactQuery.initialData (hookOptions k initialData)).
Proof.
  intros H Hr Hq Hact.
  destruct (useGlobal_Hook_inv _ _ _ _ _ _ _ _ _ _ _ H)
    as (r0 & k0 & Hr0 & Hk & Hf & _ & _ & -> & _ & Hw1).
  assert (r0 = r) as -> by congruence. injection Hk as <-.
  cbv zeta in Hw1. subst w1.
  split; [|split].
  - rewrite deref_update_eq, ReactQueryFacts.lookup_invalidateQueries, Hq. simpl.
    rewrite ReactQueryFacts.matchQuery_refl, ReactQueryFacts.isActive_invalidate, Hact.
    eexists. split; [reflexivity|].
    unfold ReactQuery.invalidate.
    destruct (ReactQuery.state_isInvalidated q) eqn:Hinv.
    + repeat split; try done. by apply settle_idle.
    + repeat split. intros Hidle. by apply settle_idle.
  - intros key. rewrite deref_update_eq.
    apply ReactQueryFacts.getQueryData_invalidateQueries.
  - rewrite deref_update_eq.
    destruct (ReactQueryFacts.useQuery_disabled_lookup seedsExisting
      (hookOptions k initialData) cid (deref r w)) as (q1 & Hl1 & _ & Hobs1 & _); [done|].
    destruct (ReactQueryFacts.subscribe_self cid false
      (ReactQuery.queryFn (hookOptions k initialData))
      (ReactQuery.observers (ReactQuery.setOptions seedsExisting (hookOptions k initialData)
        (ReactQuery.build (ReactQuery.queryKey (hookOptions k initialData))
          (ReactQuery.queryFn (hookOptions k initialData))
          (ReactQuery.initialData (hookOptions k initialData)) (deref r w)))))
      as (o & Ho & Hc & He & Hfn).
    exists q1. eexists. exists o. split; [exact Hl1|].
    rewrite Hobs1. split; [exact Ho|]. split; [exact Hc|]. split; [exact He|].
    split; [exact Hfn | reflexivity].
Qed.

(** With an enabled observer the same call would start the fetch, whose
    result then replaces the stored value. *)
Lemma invalidate_active_fetches key c q :
  ReactQuery.queries c !! key = Some q →
  ReactQuery.isActive q = true →
  ReactQuery.state_fetchStatus
    <$> ReactQuery.queries (ReactQuery.invalidateQueries key c) !! key
  = Some ReactQuery.Fetching.
Proof.
  intros Hq Hact. rewrite ReactQueryFacts.lookup_invalidateQueries, Hq. simpl.
  by rewrite ReactQueryFacts.matchQuery_refl, ReactQueryFacts.isActive_invalidate, Hact.
Qed.

(** ** Only disabled observers

    [useGlobal] subscribes with [enabled: false] and nothing else subscribes,
    so in a process that starts empty no query ever has an enabled observer. *)

Lemma isActive_false q :
  ReactQuery.isActive q = false
  ↔ Forall (λ o, ReactQuery.o_enabled o = false) (ReactQuery.observers q).
Proof.
  unfold ReactQuery.isActive. induction (ReactQuery.observers q) as [|o obs IH]; simpl.
  - split; [constructor | done].
  - rewrite Forall_cons, <- IH. destruct (ReactQuery.o_enabled o); simpl.
    + split; [discriminate | by intros [? _]].
    + split; [by split | by intros [_ ?]].
Qed.

Lemma isActive_setOptions opts q :
  ReactQuery.isActive (ReactQuery.setOptions seedsExisting opts q) = ReactQuery.isActive q.
Proof.
  unfold ReactQuery.setOptions.
  destruct (ReactQuery.state_data q), (ReactQuery.initialData opts), seedsExisting;
    try reflexivity; by rewrite ReactQueryFacts.isActive_dispatch.
Qed.

Lemma subscribe_disabled cid fn obs :
  Forall (λ o, ReactQuery.o_enabled o = false) obs →
  Forall (λ o, ReactQuery.o_enabled o = false) (ReactQuery.subscribe cid false fn obs).
Proof.
  intros H. unfold ReactQuery.subscribe.
  destruct (list_find _ obs) as [[i o]|].
  - by apply Forall_insert.
  - apply Forall_app. split; [done|]. by repeat constructor.
Qed.

Lemma inactive_new : inactive ReactQuery.new_QueryClient.
Proof. intros key q H. unfold ReactQuery.new_QueryClient in H. simpl in H. by rewrite lookup_empty in H. Qed.

Lemma inactive_build key fn d c :
  inactive c → ReactQuery.isActive (ReactQuery.build key fn d c) = false.
Proof.
  intros Hc. unfold ReactQuery.build.
  destruct (ReactQuery.queries c !! key) as [q|] eqn:Hq; [by apply (Hc key)|done].
Qed.

Lemma inactive_useQuery opts cid c :
  ReactQuery.enabled opts = false →
  inactive c → inactive (ReactQuery.useQuery seedsExisting opts cid c).2.
Proof.
  intros He Hc key q. unfold ReactQuery.useQuery. rewrite He. simpl.
  destruct (decide (ReactQuery.queryKey opts = key)) as [<-|Hne].
  - rewrite lookup_insert_eq. intros [= <-].
    apply isActive_false. simpl. apply subscribe_disabled, isActive_false.
    rewrite isActive_setOptions. by apply inactive_build.
  - rewrite lookup_insert_ne by done. apply Hc.
Qed.

Lemma inactive_setQueryData key v c :
  inactive c → inactive (ReactQuery.setQueryData key v c).
Proof.
  intros Hc key' q. unfold ReactQuery.setQueryData.
  assert (Hins : ∀ d, <[key := ReactQuery.dispatch (ReactQuery.ActSuccess d true)
                   (ReactQuery.build key None VUndefined c)]> (ReactQuery.queries c)
                 !! key' = Some q → ReactQuery.isActive q = false).
  { intros d. destruct (decide (key = key')) as [<-|Hne].
    - rewrite lookup_insert_eq. intros [= <-].
      rewrite ReactQueryFacts.isActive_dispatch. by apply inactive_build.
    - rewrite lookup_insert_ne by done. apply Hc. }
  destruct v; simpl; first [apply Hc | apply Hins].
Qed.

Lemma inactive_removeQueries key c :
  inactive c → inactive (ReactQuery.removeQueries key c).
Proof.
  intros Hc key' q. unfold ReactQuery.removeQueries. simpl.
  intros [H _]%map_lookup_filter_Some. by apply (Hc key').
Qed.

Lemma inactive_invalidateQueries key c :
  inactive c → inactive (ReactQuery.invalidateQueries key c).
Proof.
  intros Hc key' q. rewrite ReactQueryFacts.lookup_invalidateQueries.
  destruct (ReactQuery.queries c !! key') as [q0|] eqn:Hq; [|done]. simpl.
  intros [= <-]. assert (H0 := Hc key' q0 Hq).
  destruct (ReactQuery.matchQuery key key'); [|done].
  by rewrite ReactQueryFacts.isActive_invalidate, H0, ReactQueryFacts.isActive_invalidate.
Qed.

Lemma quiet_deref r w : quiet w → inactive (deref r w).
Proof.
  intros Hw. unfold deref. destruct (heap w !! r) as [c|] eqn:Hc; simpl.
  - by apply (Hw r).
  - apply inactive_new.
Qed.

Lemma quiet_update r f w :
  quiet w → inactive (f (deref r w)) → quiet (update r f w).
Proof.
  intros Hw Hf r' c. unfold update. simpl.
  destruct (decide (r = r')) as [<-|Hne].
  - rewrite lookup_insert_eq. by intros [= <-].
  - rewrite lookup_insert_ne by done. apply Hw.
Qed.

Lemma quiet_boot : quiet boot.
Proof. intros r c H. unfold boot in H. simpl in H. by rewrite lookup_empty in H. Qed.

Lemma step_quiet w w' : step seedsExisting w w' → quiet w → quiet w'.
Proof.
  intros Hs Hq. destruct Hs as [w | ? ? ? ? ? w u w' H | ? ? ? ? ? ? ? ? ? ? ? arg w H
    | ? ? ? ? ? ? ? ? ? ? ? w H | ? ? ? ? ? ? ? ? ? ? ? w H ].
  - unfold queryClient. destruct (astroQueryClient w); [done|]. simpl.
    intros r c. simpl. destruct (decide (fresh (dom (heap w)) = r)) as [<-|Hne].
    + rewrite lookup_insert_eq. intros [= <-]. apply inactive_new.
    + rewrite lookup_insert_ne by done. apply Hq.
  - destruct u as [get | data sd rf rs].
    + by destruct (useGlobal_Accessor_inv _ _ _ _ _ _ _ _ H) as (_ & _ & _ & -> & _).
    + destruct (useGlobal_Hook_inv _ _ _ _ _ _ _ _ _ _ _ H)
        as (r & k & _ & _ & _ & _ & _ & _ & _ & ->).
      apply quiet_update; [done|]. apply inactive_useQuery; [done|].
      by apply quiet_deref.
  - destruct (useGlobal_Hook_inv _ _ _ _ _ _ _ _ _ _ _ H)
      as (r & k & _ & _ & _ & _ & -> & _ & _ & _).
    apply quiet_update; [done|]. by apply inactive_setQueryData, quiet_deref.
  - destruct (useGlobal_Hook_inv _ _ _ _ _ _ _ _ _ _ _ H)
      as (r & k & _ & _ & _ & _ & _ & -> & _ & _).
    apply quiet_update; [done|]. by apply inactive_invalidateQueries, quiet_deref.
  - destruct (useGlobal_Hook_inv _ _ _ _ _ _ _ _ _ _ _ H)
      as (r & k & _ & _ & _ & _ & _ & _ & -> & _).
    apply quiet_update; [done|]. by apply inactive_removeQueries, quiet_deref.
Qed.

Lemma reachable_quiet w :
  rtc (step seedsExisting) boot w →
  ∀ r key q, ReactQuery.queries (deref r w) !! key = Some q →
    ReactQuery.isActive q = false.
Proof.
  intros Hs. assert (Hq : quiet w).
  { generalize quiet_boot. induction Hs as [|w0 w1 w2 Hs1 _ IH]; [done|].
    intros H0. apply IH. by apply (step_quiet w0). }
  intros r key q. by apply quiet_deref.
Qed.

End Modes.

(** * Scenarios

    The theorems above at concrete calls, in the process that has just loaded
    the singleton module: its client is the reference 0.  Hook-mode calls are
    made under a provider of that client. *)

(** [useGlobal("THEME", "light")], [setTheme("dark")], [refresh()]; then the
    hook-mode reader of another component and the accessor both see
    ["dark"]. *)
Lemma setValue_visible_THEME :
  match useGlobal true (Some 0) (Some 0) 1 (Some (KString "THEME"))
          (InitValue (VStr "light")) (queryClient boot).2 with
  | Return (Hook _ setTheme refresh _, w1) =>
      let w2 := refresh (setTheme (Value (VStr "dark")) w1) in
      (∃ setData' refresh' reset' w3,
         useGlobal true (Some 0) None 2 (Some (KString "THEME")) omitted w2
           = Return (Hook (VStr "dark") setData' refresh' reset', w3))
      ∧ (∃ get, useGlobal true None (Some 0) 3 None omitted w2 = Return (Accessor get, w2)
                ∧ get (KString "THEME") w2 = VStr "dark")
  | _ => False
  end.
Proof.
  pose proof (setValue_visible true (Some 0) (Some 0) 1 (KString "THEME")
    (InitValue (VStr "light")) (queryClient boot).2 _ _ _ _ _ 0 (VStr "dark")
    (update 0 (λ _, (ReactQuery.useQuery true
       (hookOptions (KString "THEME") (InitValue (VStr "light"))) 1
       (deref 0 (queryClient boot).2)).2) (queryClient boot).2) _
    eq_refl eq_refl ltac:(discriminate)
    (rtc_l _ _ _ _
       (read_refresh true (Some 0) (Some 0) 1 (Some (KString "THEME"))
          (InitValue (VStr "light")) (queryClient boot).2 _ _ _ _ _ _ eq_refl)
       (rtc_refl _ _))) as H.
  cbv zeta. split.
  - exact (proj1 H None 2 omitted).
  - eexists. split; [reflexivity|].
    exact (proj2 H None (Some 0) 3 None omitted _ _ eq_refl eq_refl).
Defined.

(** C1 as stated fails at [v = undefined]: [setTheme(undefined)] writes
    nothing, so both readers still see ["light"]; and on an entry without data
    the accessor answers [null], since [get] never returns [undefined]. *)
Lemma setValue_undefined_not_visible :
  let scenario seedsExisting :=
    match useGlobal seedsExisting (Some 0) (Some 0) 1 (Some (KString "THEME"))
            (InitValue (VStr "light")) (queryClient boot).2,
          useGlobal seedsExisting (Some 0) (Some 0) 1 (Some (KString "USER"))
            omitted (queryClient boot).2 with
    | Return (Hook _ setTheme _ _, w1), Return (Hook _ setUser _ _, w1') =>
        let w2 := setTheme (Value VUndefined) w1 in
        let w2' := setUser (Value VUndefined) w1' in
        match useGlobal seedsExisting (Some 0) (Some 0) 2 (Some (KString "THEME")) omitted w2,
              useGlobal seedsExisting None (Some 0) 3 None omitted w2 with
        | Return (Hook data _ _ _, _), Return (Accessor get, _) =>
            data = VStr "light"
            ∧ get (KString "THEME") w2 = VStr "light"
            ∧ get (KString "USER") w2' = VNull
            ∧ VStr "light" ≠ VUndefined
            ∧ VNull ≠ VUndefined
        | _, _ => False
        end
    | _, _ => False
    end in
  scenario true ∧ scenario false.
Proof. cbv zeta. split; vm_compute; repeat split; discriminate. Qed.

(** [useGlobal("LANGUAGE", "en")] in one component, [useGlobal("LANGUAGE")]
    in another, under a provider of the same client. *)
Lemma seeded_entry_is_shared_LANGUAGE :
  ∃ setData refresh reset w1,
    useGlobal true (Some 0) (Some 0) 1 (Some (KString "LANGUAGE"))
        (InitValue (VStr "en")) (queryClient boot).2
      = Return (Hook (VStr "en") setData refresh reset, w1)
    ∧ ∃ setData' refresh' reset' w2,
        useGlobal true (Some 0) None 2 (Some (KString "LANGUAGE")) omitted w1
          = Return (Hook (VStr "en") setData' refresh' reset', w2).
Proof.
  destruct (seeded_entry_is_shared true (Some 0) 1 (KString "LANGUAGE")
    (VStr "en") (queryClient boot).2 0 eq_refl eq_refl)
    as (sd & rf & rs & w1 & H1 & _ & H2).
  destruct (H2 None 2) as (sd' & rf' & rs' & w2 & H3 & _).
  exists sd, rf, rs, w1. split; [exact H1|].
  exists sd', rf', rs', w2. exact H3.
Defined.

(** C5 as stated fails at the empty sequence: [useGlobal([])] is a hook-mode
    call that seeds the entry under the joined key [""], while
    [useGlobal("")], the literal string equal to the joined form, is an
    accessor-mode call that reads and seeds nothing. *)
Lemma empty_sequence_key_changes_mode :
  let scenario seedsExisting :=
    Array_join "." [] = ""
    ∧ match useGlobal seedsExisting (Some 0) (Some 0) 1 (Some (KArray []))
              (InitValue (VStr "x")) (queryClient boot).2,
            useGlobal seedsExisting (Some 0) (Some 0) 1 (Some (KString (Array_join "." [])))
              (InitValue (VStr "x")) (queryClient boot).2 with
      | Return (Hook data _ _ _, w1), Return (Accessor _, w1') =>
          data = VStr "x"
          ∧ ReactQuery.getQueryData (theKey (KArray [])) (deref 0 w1) = VStr "x"
          ∧ ReactQuery.getQueryData (theKey (KArray [])) (deref 0 w1') = VUndefined
      | _, _ => False
      end in
  scenario true ∧ scenario false.
Proof. cbv zeta. split; vm_compute; repeat split. Qed.

(** The nested key of the README, [["app", "theme"]], and ["app.theme"]. *)
Lemma sequence_key_is_joined_key_app_theme :
  theKey (KArray ["app"; "theme"]) = ["__GLOBAL_STATE__"; "app.theme"]
  ∧ useGlobal true (Some 0) (Some 0) 1 (Some (KArray ["app"; "theme"]))
        (InitValue (VStr "light")) (queryClient boot).2
    = useGlobal true (Some 0) (Some 0) 1 (Some (KString "app.theme"))
        (InitValue (VStr "light")) (queryClient boot).2.
Proof.
  split.
  - exact (proj1 (sequence_key_is_joined_key true ["app"; "theme"])).
  - refine (proj2 (proj2 (proj2 (sequence_key_is_joined_key true ["app"; "theme"])))
      _ (Some 0) (Some 0) 1 (InitValue (VStr "light")) (queryClient boot).2).
    discriminate.
Defined.

(** ["light"], [setTheme("dark")], [reset()], then a fresh
    [useGlobal("THEME", "sepia")]. *)
Lemma reset_then_reseed_THEME :
  match useGlobal true (Some 0) (Some 0) 1 (Some (KString "THEME"))
          (InitValue (VStr "light")) (queryClient boot).2 with
  | Return (Hook _ setTheme _ reset, w1) =>
      let w2 := reset (setTheme (Value (VStr "dark")) w1) in
      ReactQuery.queries (deref 0 w2) !! theKey (KString "THEME") = None
      ∧ ∃ setData' refresh' reset' w3,
          useGlobal true (Some 0) (Some 0) 2 (Some (KString "THEME"))
              (InitValue (VStr "sepia")) w2
            = Return (Hook (VStr "sepia") setData' refresh' reset', w3)
  | _ => False
  end.
Proof.
  pose proof (reset_then_reseed true (Some 0) (Some 0) 1 (KString "THEME")
    (InitValue (VStr "light")) (queryClient boot).2 _ _ _ _ _ 0
    eq_refl eq_refl) as H.
  cbv zeta. split.
  - exact (proj1 (H _)).
  - exact (proj2 (H _) (Some 0) 2 (VStr "sepia")).
Defined.

(** The module is loaded, a component renders and writes, the module is
    loaded again by another island: the same reference, the world as it was. *)
Lemma registry_access_idempotent_boot :
  match useGlobal true (Some 0) (Some 0) 1 (Some (KString "THEME"))
          (InitValue (VStr "light")) (queryClient boot).2 with
  | Return (Hook _ setTheme _ _, w1) =>
      queryClient (setTheme (Value (VStr "dark")) w1)
        = (0, setTheme (Value (VStr "dark")) w1)
  | _ => False
  end.
Proof.
  exact (proj1 (proj2 (proj2 (proj2
    (registry_access_idempotent true boot _ eq_refl
      (rtc_l _ _ _ _
         (step_render true (Some 0) (Some 0) 1 (Some (KString "THEME"))
            (InitValue (VStr "light")) (queryClient boot).2 _ _ eq_refl)
         (rtc_l _ _ _ _
            (step_setData true (Some 0) (Some 0) 1 (Some (KString "THEME"))
               (InitValue (VStr "light")) (queryClient boot).2 _ _ _ _ _
               (Value (VStr "dark")) _ eq_refl)
            (rtc_refl _ _)))))))).
Defined.

(** C9 as stated fails on two counts: the query of a hook-mode call does have
    a fetch function (it returns the initial value), and a second [refresh()]
    in a row calls no observer: the one observer of the entry has been called
    once after one [refresh()] and still once after two. *)
Lemma refresh_has_queryFn_and_notifies_once :
  let scenario seedsExisting :=
    match useGlobal seedsExisting (Some 0) (Some 0) 1 (Some (KString "THEME"))
            (InitValue (VStr "light")) (queryClient boot).2 with
    | Return (Hook _ _ refresh _, w1) =>
        let entry w := ReactQuery.queries (deref 0 w) !! theKey (KString "THEME") in
        let fetched q := (λ f : unit → js_value, f ()) <$> ReactQuery.options_queryFn q in
        let updates q := ReactQuery.o_updates <$> ReactQuery.observers q in
        fetched <$> entry w1 = Some (Some (VStr "light"))
        ∧ updates <$> entry w1 = Some [[]]
        ∧ updates <$> entry (refresh w1) = Some [[ReactQuery.ActInvalidate]]
        ∧ updates <$> entry (refresh (refresh w1)) = Some [[ReactQuery.ActInvalidate]]
    | _ => False
    end in
  scenario true ∧ scenario false.
Proof. cbv zeta. split; vm_compute; repeat split. Qed.

(** [refresh()] right after the render of [useGlobal("THEME", "light")]. *)
Lemma refresh_touch_THEME :
  match useGlobal true (Some 0) (Some 0) 1 (Some (KString "THEME"))
          (InitValue (VStr "light")) (queryClient boot).2 with
  | Return (Hook _ _ refresh _, w1) =>
      (∃ q', ReactQuery.queries (deref 0 (refresh w1)) !! theKey (KString "THEME") = Some q'
             ∧ ReactQuery.state_data q' = VStr "light"
             ∧ ReactQuery.state_isInvalidated q' = true)
      ∧ ReactQuery.getQueryData (theKey (KString "THEME")) (deref 0 (refresh w1))
        = ReactQuery.getQueryData (theKey (KString "THEME")) (deref 0 w1)
  | _ => False
  end.
Proof.
  destruct (refresh_touch true (Some 0) (Some 0) 1 (KString "THEME")
    (InitValue (VStr "light")) (queryClient boot).2 _ _ _ _ _ 0
    (update 0 (λ _, (ReactQuery.useQuery true
       (hookOptions (KString "THEME") (InitValue (VStr "light"))) 1
       (deref 0 (queryClient boot).2)).2) (queryClient boot).2) _
    eq_refl eq_refl eq_refl eq_refl) as ((q' & Hl & Hd & Hi & _) & Hall & _).
  cbv zeta. split.
  - exists q'. split; [exact Hl|]. split; [exact Hd | exact Hi].
  - exact (Hall (theKey (KString "THEME"))).
Defined.

(** [useGlobal("")] and [useGlobal([])] under a provider of the singleton's
    client. *)
Lemma empty_string_key_is_accessor_mode_boot :
  (∃ get,
     useGlobal true (Some 0) (Some 0) 1 (Some (KString "")) omitted (queryClient boot).2
       = Return (Accessor get, (queryClient boot).2))
  ∧ (∃ data setData refresh reset w',
       useGlobal true (Some 0) (Some 0) 1 (Some (KArray [])) omitted (queryClient boot).2
         = Return (Hook data setData refresh reset, w')).
Proof.
  destruct (empty_string_key_is_accessor_mode true (Some 0) (Some 0) 1
    omitted (queryClient boot).2 0 eq_refl) as (_ & _ & Hacc & _ & Hhook & _).
  split; [exact Hacc | exact (Hhook eq_refl)].
Defined.

(** * Further properties *)

(** ** Joining sequence keys *)

Lemma append_assoc (a b c : string) : (a +:+ b) +:+ c = a +:+ (b +:+ c).
Proof.
  induction a as [|x a IH]; [done|].
  change (String x ((a +:+ b) +:+ c) = String x (a +:+ (b +:+ c))).
  by rewrite IH.
Qed.

Lemma Array_join_cons sep x y l :
  Array_join sep (x :: y :: l) = x +:+ sep +:+ Array_join sep (y :: l).
Proof. reflexivity. Qed.

Lemma Array_join_app sep l1 l2 :
  l1 ≠ [] → l2 ≠ [] →
  Array_join sep (l1 ++ l2) = Array_join sep l1 +:+ sep +:+ Array_join sep l2.
Proof.
  intros H1 H2. induction l1 as [|x l1 IH]; [done|].
  destruct l1 as [|y l1].
  - destruct l2 as [|z l2]; [done|]. reflexivity.
  - change ((x :: y :: l1) ++ l2)%list with (x :: y :: (l1 ++ l2))%list.
    rewrite !Array_join_cons.
    change (y :: l1 ++ l2)%list with ((y :: l1) ++ l2)%list.
    rewrite IH by done. by rewrite !append_assoc.
Qed.

(** X1: flattening forgets where a sequence key was cut.  A sequence, the
    two-part sequence of the joined halves of any cut of it, and the joined
    literal string all address one entry. *)
Theorem nested_keys_collapse l1 l2 :
  l1 ≠ [] → l2 ≠ [] →
  theKey (KArray (l1 ++ l2))
    = theKey (KArray [Array_join "." l1; Array_join "." l2])
  ∧ theKey (KArray (l1 ++ l2))
    = theKey (KString (Array_join "." l1 +:+ "." +:+ Array_join "." l2)).
Proof.
  intros H1 H2. unfold theKey.
  rewrite (Array_join_app "." l1 l2) by done. by split.
Qed.

Lemma contains_app_sep c (x t : string) :
  contains c (x +:+ String c t) = true.
Proof.
  induction x as [|a x IH]; simpl.
  - by rewrite Ascii.eqb_refl.
  - by destruct (Ascii.eqb a c).
Qed.

Lemma append_sep_inj c (x y s t : string) :
  contains c x = false → contains c y = false →
  x +:+ String c s = y +:+ String c t → x = y ∧ s = t.
Proof.
  revert y. induction x as [|a x IH]; intros [|b y] Hx Hy; simpl in *.
  - by intros [= ->].
  - intros [= <- _]. by rewrite Ascii.eqb_refl in Hy.
  - intros [= -> _]. by rewrite Ascii.eqb_refl in Hx.
  - intros [= -> Heq].
    destruct (Ascii.eqb b c); [done|].
    destruct (IH y Hx Hy Heq) as [-> ->]. done.
Qed.

Lemma Array_join_inj l l' :
  l ≠ [] → l' ≠ [] →
  Forall (λ s, contains separator s = false) l →
  Forall (λ s, contains separator s = false) l' →
  Array_join "." l = Array_join "." l' → l = l'.
Proof.
  revert l'. induction l as [|x l IH]; [done|].
  intros [|y l'] _; [done|]. intros _ Hl Hl'.
  apply Forall_cons in Hl as [Hx Hl]. apply Forall_cons in Hl' as [Hy Hl'].
  destruct l as [|x2 l], l' as [|y2 l'].
  - simpl. by intros ->.
  - rewrite Array_join_cons. simpl Array_join at 1. intros ->.
    change ("." +:+ ?t) with (String separator t) in Hx.
    by rewrite contains_app_sep in Hx.
  - rewrite Array_join_cons. simpl Array_join at 2. intros <-.
    change ("." +:+ ?t) with (String separator t) in Hy.
    by rewrite contains_app_sep in Hy.
  - rewrite !Array_join_cons.
    change ("." +:+ ?t) with (String separator t).
    intros Heq. destruct (append_sep_inj _ _ _ _ _ Hx Hy Heq) as [-> Hrest].
    f_equal. by apply IH.
Qed.

(** X2: on non-empty sequences whose parts contain no ["."], the key encoding
    is injective: two different such sequences address different entries. *)
Theorem dot_free_keys_do_not_collide l l' :
  l ≠ [] → l' ≠ [] →
  Forall (λ s, contains separator s = false) l →
  Forall (λ s, contains separator s = false) l' →
  l ≠ l' →
  theKey (KArray l) ≠ theKey (KArray l').
Proof.
  intros H1 H2 Hl Hl' Hne [= Heq]. apply Hne. by apply Array_join_inj.
Qed.

(** ** The wrapper's name *)

Lemma or_else_nonempty a b : b ≠ "" → or_else a b ≠ "".
Proof.
  intros Hb. unfold or_else. destruct a as [s|]; [|done].
  case_bool_decide; done.
Qed.

Lemma wrappedName_nonempty {P} (W : ComponentType P) : wrappedName W ≠ "".
Proof. unfold wrappedName. by apply or_else_nonempty. Qed.

Lemma append_nonempty (a b : string) : a ≠ "" → a +:+ b ≠ "".
Proof. by destruct a. Qed.

(** X3: the name the wrapper shows is never built on an empty name.  A
    non-empty [displayName] of the wrapped component is used; an unset or
    empty one falls through to the function's name, and an empty function
    name falls through to ["Component"]. *)
Theorem withReactQuery_displayName {P} (W : ComponentType P) :
  displayName (withReactQuery W)
    = Some ("withReactQuery(" +:+ wrappedName W +:+ ")")
  ∧ wrappedName W ≠ ""
  ∧ (∀ d, displayName W = Some d → d ≠ "" → wrappedName W = d)
  ∧ (displayName W = None ∨ displayName W = Some "" →
     name W ≠ "" → wrappedName W = name W)
  ∧ (displayName W = None ∨ displayName W = Some "" →
     name W = "" → wrappedName W = "Component").
Proof.
  split; [reflexivity|]. split; [apply wrappedName_nonempty|].
  unfold wrappedName, or_else. repeat split.
  - intros d -> Hd. repeat case_bool_decide; congruence.
  - intros [-> | ->] Hn; simpl; repeat case_bool_decide; congruence.
  - intros [-> | ->] ->; reflexivity.
Qed.

Lemma withReactQuery_wrappedName {P} (V : ComponentType P) d :
  displayName V = Some d → wrappedName V = d ∨ d = "".
Proof.
  intros Hd. unfold wrappedName, or_else. rewrite Hd.
  repeat case_bool_decide; auto; congruence.
Qed.

(** X4: wrapping composes.  Wrapping [n + 1] times shows the wrapped
    component's name inside [n + 1] nested [withReactQuery(...)], and every
    wrapper is the function named [WithReactQuery]. *)
Theorem withReactQuery_nested {P} (W : ComponentType P) n :
  displayName (Nat.iter (S n) withReactQuery W)
    = Some (Nat.iter (S n) (λ s, "withReactQuery(" +:+ s +:+ ")") (wrappedName W))
  ∧ name (Nat.iter (S n) withReactQuery W) = "WithReactQuery".
Proof.
  induction n as [|n [IHd IHn]]; [done|].
  split; [|reflexivity].
  set (wrap := λ s, "withReactQuery(" +:+ s +:+ ")") in *.
  set (V := Nat.iter (S n) withReactQuery W) in *.
  change (Some (wrap (wrappedName V))
          = Some (wrap (Nat.iter (S n) wrap (wrappedName W)))).
  do 2 f_equal.
  destruct (withReactQuery_wrappedName V (Nat.iter (S n) wrap (wrappedName W)))
    as [-> | Hempty]; [exact IHd | reflexivity |].
  simpl in Hempty. discriminate.
Qed.

(** ** [useGlobal]: reads, frames and what never happens *)

Lemma theKey_head k : head (theKey k) = Some GLOBAL_KEY.
Proof. reflexivity. Qed.

Lemma theKey_prefix a b : theKey a `prefix_of` theKey b → theKey a = theKey b.
Proof.
  unfold theKey. intros [rest Hrest]. simpl in Hrest.
  injection Hrest as Heq Hnil. by rewrite Heq.
Qed.

Lemma matchQuery_other_key k k' :
  theKey k' ≠ theKey k → ReactQuery.matchQuery (theKey k) (theKey k') = false.
Proof.
  intros Hne. unfold ReactQuery.matchQuery. apply bool_decide_eq_false.
  intros Hp. by apply theKey_prefix in Hp.
Qed.

Lemma matchQuery_outside k key :
  head key ≠ Some GLOBAL_KEY → ReactQuery.matchQuery (theKey k) key = false.
Proof.
  intros Hne. unfold ReactQuery.matchQuery. apply bool_decide_eq_false.
  intros [rest ->]. by apply Hne.
Qed.

Lemma lookup_setQueryData_other key key' v c :
  key' ≠ key →
  ReactQuery.queries (ReactQuery.setQueryData key v c) !! key'
    = ReactQuery.queries c !! key'.
Proof.
  intros Hne. unfold ReactQuery.setQueryData.
  destruct v; simpl; by rewrite ?lookup_insert_ne.
Qed.

Lemma lookup_invalidateQueries_other filters key c :
  ReactQuery.matchQuery filters key = false →
  ReactQuery.queries (ReactQuery.invalidateQueries filters c) !! key
    = ReactQuery.queries c !! key.
Proof.
  intros Hm. rewrite ReactQueryFacts.lookup_invalidateQueries, Hm.
  by destruct (ReactQuery.queries c !! key).
Qed.

Lemma deref_queryClient r w : deref r (queryClient w).2 = deref r w.
Proof.
  unfold queryClient. destruct (astroQueryClient w); [done|].
  unfold deref. simpl. destruct (decide (fresh (dom (heap w)) = r)) as [<-|Hne].
  - rewrite lookup_insert_eq.
    assert (Hn : heap w !! fresh (dom (heap w)) = None).
    { apply not_elem_of_dom. apply is_fresh. }
    by rewrite Hn.
  - by rewrite lookup_insert_ne.
Qed.

Section Further.
Variable seedsExisting : bool.

(** X5: an accessor-mode call changes nothing, and its [get] reads on demand
    from the resolved client: [null] for a key without entry, the stored value
    otherwise with [undefined] turned into [null]; it never returns
    [undefined]. *)
Theorem accessor_reads_only context g cid key initialData w get w' r :
  useGlobal seedsExisting context g cid key initialData w = Return (Accessor get, w') →
  resolve context g = Some r →
  w' = w
  ∧ ∀ k w2,
      get k w2 ≠ VUndefined
      ∧ (ReactQuery.queries (deref r w2) !! theKey k = None → get k w2 = VNull)
      ∧ (∀ q, ReactQuery.queries (deref r w2) !! theKey k = Some q →
           get k w2 = nullish (ReactQuery.state_data q) VNull).
Proof.
  intros H Hr.
  destruct (useGlobal_Accessor_inv _ _ _ _ _ _ _ _ _ H) as (r0 & Hr0 & _ & -> & ->).
  assert (r0 = r) as -> by congruence.
  split; [done|]. intros k w2. unfold ReactQuery.getQueryData. split; [|split].
  - destruct (ReactQuery.queries (deref r w2) !! theKey k) as [q|]; [|done].
    by destruct (ReactQuery.state_data q).
  - by intros ->.
  - by intros q ->.
Qed.

(** X6: a hook-mode call for one key, and the closures it returns, leave the
    entry of every other [useGlobal] key as it is, in every client. *)
Theorem other_keys_untouched context g cid k initialData w data setData refresh reset
    w1 r k' :
  useGlobal seedsExisting context g cid (Some k) initialData w
    = Return (Hook data setData refresh reset, w1) →
  resolve context g = Some r →
  theKey k' ≠ theKey k →
  ∀ r',
    ReactQuery.queries (deref r' w1) !! theKey k'
      = ReactQuery.queries (deref r' w) !! theKey k'
    ∧ ∀ w2,
        (∀ arg, ReactQuery.queries (deref r' (setData arg w2)) !! theKey k'
                = ReactQuery.queries (deref r' w2) !! theKey k')
        ∧ ReactQuery.queries (deref r' (refresh w2)) !! theKey k'
          = ReactQuery.queries (deref r' w2) !! theKey k'
        ∧ ReactQuery.queries (deref r' (reset w2)) !! theKey k'
          = ReactQuery.queries (deref r' w2) !! theKey k'.
Proof.
  intros H Hr Hne r'.
  destruct (useGlobal_Hook_inv _ _ _ _ _ _ _ _ _ _ _ _ H)
    as (r0 & k0 & Hr0 & Hk & Hf & _ & -> & -> & -> & ->).
  assert (r0 = r) as -> by congruence. injection Hk as <-.
  destruct (decide (r = r')) as [<-|Hr'].
  - split; [|intros w2; split; [|split]].
    + rewrite deref_update_eq. by apply ReactQueryFacts.useQuery_lookup_other.
    + intros arg. rewrite deref_update_eq. by apply lookup_setQueryData_other.
    + rewrite deref_update_eq. by apply lookup_invalidateQueries_other, matchQuery_other_key.
    + rewrite deref_update_eq.
      by apply ReactQueryFacts.lookup_removeQueries_other, matchQuery_other_key.
  - split; [|intros w2; split; [|split]]; try intros arg; by rewrite deref_update_ne.
Qed.

(** X7: on an entry that holds a defined value, a hook-mode call under a
    provider returns the stored value and leaves it stored, whatever initial
    value or initializer the caller passes. *)
Theorem render_keeps_stored_value g cid k initialData w r q :
  falsy (Some k) = false →
  ReactQuery.queries (deref r w) !! theKey k = Some q →
  ReactQuery.state_data q ≠ VUndefined →
  ∃ setData refresh reset w',
    useGlobal seedsExisting (Some r) g cid (Some k) initialData w
      = Return (Hook (ReactQuery.state_data q) setData refresh reset, w')
    ∧ ReactQuery.getQueryData (theKey k) (deref r w') = ReactQuery.state_data q.
Proof.
  intros Hf Hq Hd.
  rewrite (useGlobal_hook _ _ _ _ _ _ _ r) by done. cbv zeta.
  rewrite (ReactQueryFacts.useQuery_present _ _ _ _ q) by done.
  do 4 eexists. split; [reflexivity|].
  rewrite deref_update_eq. apply getQueryData_useQuery; [done| |done].
  unfold ReactQuery.getQueryData. by rewrite Hq.
Qed.

(** X8: right after the render the cache holds the value the tuple carries,
    so an updater called before anything else writes is applied to the stored
    value. *)
Theorem updater_right_after_render context g cid k initialData w data setData refresh
    reset w1 r f :
  useGlobal seedsExisting context g cid (Some k) initialData w
    = Return (Hook data setData refresh reset, w1) →
  resolve context g = Some r →
  f data ≠ VUndefined →
  ReactQuery.getQueryData (theKey k) (deref r w1) = data
  ∧ ReactQuery.getQueryData (theKey k) (deref r (setData (Updater f) w1))
    = f (ReactQuery.getQueryData (theKey k) (deref r w1)).
Proof.
  intros H Hr Hv.
  destruct (useGlobal_Hook_inv _ _ _ _ _ _ _ _ _ _ _ _ H)
    as (r0 & k0 & Hr0 & Hk & Hf & Hd & -> & _ & _ & ->).
  assert (r0 = r) as -> by congruence. injection Hk as <-.
  cbv zeta in Hd. rewrite <- Hd.
  assert (Hg : ReactQuery.getQueryData (theKey k)
      (deref r (update r (λ _, (ReactQuery.useQuery seedsExisting
         (hookOptions k initialData) cid (deref r w)).2) w)) = data).
  { rewrite deref_update_eq. unfold ReactQuery.getQueryData.
    destruct (ReactQueryFacts.useQuery_lookup seedsExisting
      (hookOptions k initialData) cid (deref r w)) as (q & Hl & Hq).
    change (ReactQuery.queryKey (hookOptions k initialData)) with (theKey k) in Hl.
    rewrite Hl. congruence. }
  split; [exact Hg|]. rewrite Hg. cbn [written].
  rewrite deref_update_eq. by apply ReactQueryFacts.getQueryData_setQueryData.
Qed.

(** ** No fetch is ever started *)

Lemma fetchStatus_setOptions opts q :
  ReactQuery.state_fetchStatus (ReactQuery.setOptions seedsExisting opts q)
    = ReactQuery.state_fetchStatus q.
Proof.
  unfold ReactQuery.setOptions.
  by destruct (ReactQuery.state_data q), (ReactQuery.initialData opts), seedsExisting.
Qed.

Lemma fetchStatus_invalidate q :
  ReactQuery.state_fetchStatus (ReactQuery.invalidate q) = ReactQuery.state_fetchStatus q.
Proof. unfold ReactQuery.invalidate. by destruct (ReactQuery.state_isInvalidated q). Qed.

Lemma idle_new : idle ReactQuery.new_QueryClient.
Proof. intros key q H. unfold ReactQuery.new_QueryClient in H. simpl in H. by rewrite lookup_empty in H. Qed.

Lemma idle_build key fn d c :
  idle c → ReactQuery.state_fetchStatus (ReactQuery.build key fn d c) = ReactQuery.Idle.
Proof.
  intros Hc. unfold ReactQuery.build.
  destruct (ReactQuery.queries c !! key) as [q|] eqn:Hq; [by apply (Hc key)|done].
Qed.

Lemma idle_useQuery opts cid c :
  ReactQuery.enabled opts = false →
  idle c → idle (ReactQuery.useQuery seedsExisting opts cid c).2.
Proof.
  intros He Hc key q. unfold ReactQuery.useQuery. rewrite He. simpl.
  destruct (decide (ReactQuery.queryKey opts = key)) as [<-|Hne].
  - rewrite lookup_insert_eq. intros [= <-]. simpl.
    rewrite fetchStatus_setOptions. by apply idle_build.
  - rewrite lookup_insert_ne by done. apply Hc.
Qed.

Lemma idle_setQueryData key v c : idle c → idle (ReactQuery.setQueryData key v c).
Proof.
  intros Hc key' q. unfold ReactQuery.setQueryData.
  assert (Hins : ∀ d, <[key := ReactQuery.dispatch (ReactQuery.ActSuccess d true)
                   (ReactQuery.build key None VUndefined c)]> (ReactQuery.queries c)
                 !! key' = Some q → ReactQuery.state_fetchStatus q = ReactQuery.Idle).
  { intros d. destruct (decide (key = key')) as [<-|Hne].
    - rewrite lookup_insert_eq. intros [= <-]. simpl. by apply idle_build.
    - rewrite lookup_insert_ne by done. apply Hc. }
  destruct v; simpl; first [apply Hc | apply Hins].
Qed.

Lemma idle_removeQueries key c : idle c → idle (ReactQuery.removeQueries key c).
Proof.
  intros Hc key' q. unfold ReactQuery.removeQueries. simpl.
  intros [H _]%map_lookup_filter_Some. by apply (Hc key').
Qed.

Lemma idle_invalidateQueries key c :
  inactive c → idle c → idle (ReactQuery.invalidateQueries key c).
Proof.
  intros Ha Hc key' q. rewrite ReactQueryFacts.lookup_invalidateQueries.
  destruct (ReactQuery.queries c !! key') as [q0|] eqn:Hq; [|done]. simpl.
  intros [= <-]. assert (H0 := Hc key' q0 Hq). assert (H1 := Ha key' q0 Hq).
  destruct (ReactQuery.matchQuery key key'); [|done].
  by rewrite ReactQueryFacts.isActive_invalidate, H1, fetchStatus_invalidate.
Qed.

Lemma calm_deref r w : calm w → idle (deref r w).
Proof.
  intros Hw. unfold deref. destruct (heap w !! r) as [c|] eqn:Hc; simpl.
  - by apply (Hw r).
  - apply idle_new.
Qed.

Lemma calm_update r f w : calm w → idle (f (deref r w)) → calm (update r f w).
Proof.
  intros Hw Hf r' c. unfold update. simpl.
  destruct (decide (r = r')) as [<-|Hne].
  - rewrite lookup_insert_eq. by intros [= <-].
  - rewrite lookup_insert_ne by done. apply Hw.
Qed.

Lemma step_calm w w' :
  step seedsExisting w w' → quiet w → calm w → calm w'.
Proof.
  intros Hs Hq Hc. destruct Hs as [w | ? ? ? ? ? w u w' H | ? ? ? ? ? ? ? ? ? ? ? arg w H
    | ? ? ? ? ? ? ? ? ? ? ? w H | ? ? ? ? ? ? ? ? ? ? ? w H ].
  - unfold queryClient. destruct (astroQueryClient w); [done|]. simpl.
    intros r c. simpl. destruct (decide (fresh (dom (heap w)) = r)) as [<-|Hne].
    + rewrite lookup_insert_eq. intros [= <-]. apply idle_new.
    + rewrite lookup_insert_ne by done. apply Hc.
  - destruct u as [get | data sd rf rs].
    + by destruct (useGlobal_Accessor_inv _ _ _ _ _ _ _ _ _ H) as (_ & _ & _ & -> & _).
    + destruct (useGlobal_Hook_inv _ _ _ _ _ _ _ _ _ _ _ _ H)
        as (r & k & _ & _ & _ & _ & _ & _ & _ & ->).
      apply calm_update; [done|]. apply idle_useQuery; [done|]. by apply calm_deref.
  - destruct (useGlobal_Hook_inv _ _ _ _ _ _ _ _ _ _ _ _ H)
      as (r & k & _ & _ & _ & _ & -> & _ & _ & _).
    apply calm_update; [done|]. by apply idle_setQueryData, calm_deref.
  - destruct (useGlobal_Hook_inv _ _ _ _ _ _ _ _ _ _ _ _ H)
      as (r & k & _ & _ & _ & _ & _ & -> & _ & _).
    apply calm_update; [done|].
    apply idle_invalidateQueries; [by apply quiet_deref | by apply calm_deref].
  - destruct (useGlobal_Hook_inv _ _ _ _ _ _ _ _ _ _ _ _ H)
      as (r & k & _ & _ & _ & _ & _ & _ & -> & _).
    apply calm_update; [done|]. by apply idle_removeQueries, calm_deref.
Qed.

Lemma steps_quiet_calm w w' :
  rtc (step seedsExisting) w w' → quiet w ∧ calm w → quiet w' ∧ calm w'.
Proof.
  induction 1 as [|w0 w1 w2 Hs _ IH]; [done|].
  intros [Hq Hc]. apply IH. split.
  - by apply (step_quiet seedsExisting w0).
  - by apply (step_calm w0).
Qed.

(** X9: in a process that starts empty, whatever is rendered and whichever
    closures are called, no query ever has an enabled observer and no fetch is
    ever started: the query function that hook mode passes is never run, and
    nothing settles later to replace a stored value. *)
Theorem never_fetches w r key q :
  rtc (step seedsExisting) boot w →
  ReactQuery.queries (deref r w) !! key = Some q →
  ReactQuery.isActive q = false
  ∧ ReactQuery.state_fetchStatus q = ReactQuery.Idle
  ∧ ReactQuery.settle q = q.
Proof.
  intros Hs Hq.
  destruct (steps_quiet_calm boot w Hs) as [Hquiet Hcalm].
  { split; [apply quiet_boot|]. intros r0 c H. unfold boot in H. simpl in H.
    by rewrite lookup_empty in H. }
  assert (Hidle := calm_deref r w Hcalm key q Hq).
  split; [by apply (quiet_deref r w Hquiet key q)|].
  split; [done|]. by apply settle_idle.
Qed.

(** ** Which client a call touches *)

(** X10: under a provider the imported singleton plays no part: the call is
    the same whatever the singleton is, and neither the render nor any
    closure it returns changes any other client on the heap.  State written
    under a provider of another client is therefore not shared with callers
    that fall back to the singleton. *)
Theorem provider_client_takes_precedence c g cid key initialData w :
  useGlobal seedsExisting (Some c) g cid key initialData w
    = useGlobal seedsExisting (Some c) None cid key initialData w
  ∧ ∀ u w', useGlobal seedsExisting (Some c) g cid key initialData w = Return (u, w') →
      ∀ r', r' ≠ c →
        deref r' w' = deref r' w
        ∧ match u with
          | Accessor get => True
          | Hook _ setData refresh reset =>
              ∀ w2, (∀ arg, deref r' (setData arg w2) = deref r' w2)
                    ∧ deref r' (refresh w2) = deref r' w2
                    ∧ deref r' (reset w2) = deref r' w2
          end.
Proof.
  split; [reflexivity|].
  intros u w' H r' Hne. destruct u as [get | data sd rf rs].
  - destruct (useGlobal_Accessor_inv _ _ _ _ _ _ _ _ _ H) as (_ & _ & _ & -> & _).
    done.
  - destruct (useGlobal_Hook_inv _ _ _ _ _ _ _ _ _ _ _ _ H)
      as (r0 & k0 & Hr0 & _ & _ & _ & -> & -> & -> & ->).
    injection Hr0 as <-.
    split; [by rewrite deref_update_ne|].
    intros w2. split; [|split]; try intros arg; by rewrite deref_update_ne.
Qed.

(** ** After [reset()] *)

(** X11: after [reset()] the key has no entry and neither has any key nested
    under it; the accessor answers [null] for the key, and a hook-mode call
    without initial value, under a provider of the same client, gets
    [undefined]. *)
Theorem reset_then_reads context g cid k initialData w data setData refresh reset w1 r w2 :
  useGlobal seedsExisting context g cid (Some k) initialData w
    = Return (Hook data setData refresh reset, w1) →
  resolve context g = Some r →
  (∀ key, theKey k `prefix_of` key →
     ReactQuery.queries (deref r (reset w2)) !! key = None)
  ∧ (∀ context' g' cid' key' initialData' get w3, resolve context' g' = Some r →
       useGlobal seedsExisting context' g' cid' key' initialData' (reset w2)
         = Return (Accessor get, w3) →
       get k w3 = VNull)
  ∧ (∀ g' cid',
       ∃ setData' refresh' reset' w3,
         useGlobal seedsExisting (Some r) g' cid' (Some k) omitted (reset w2)
           = Return (Hook VUndefined setData' refresh' reset', w3)).
Proof.
  intros H Hr.
  destruct (useGlobal_Hook_inv _ _ _ _ _ _ _ _ _ _ _ _ H)
    as (r0 & k0 & Hr0 & Hk & Hf & _ & _ & _ & -> & _).
  assert (r0 = r) as -> by congruence. injection Hk as <-.
  assert (Hgone : ∀ key, theKey k `prefix_of` key →
    ReactQuery.queries (deref r (update r (ReactQuery.removeQueries (theKey k)) w2))
      !! key = None).
  { intros key Hp. rewrite deref_update_eq. unfold ReactQuery.removeQueries. simpl.
    apply map_lookup_filter_None. right. intros q _. simpl.
    unfold ReactQuery.matchQuery. by rewrite bool_decide_eq_true_2. }
  split; [exact Hgone|]. split.
  - intros context' g' cid' key' initialData' get w3 Hr' Hacc.
    destruct (useGlobal_Accessor_inv _ _ _ _ _ _ _ _ _ Hacc) as (r1 & Hr1 & _ & -> & ->).
    assert (r1 = r) as -> by congruence.
    unfold ReactQuery.getQueryData. by rewrite Hgone.
  - intros g' cid'.
    apply (unseeded_hook_undefined seedsExisting (Some r) g' cid' k _ r eq_refl Hf).
    by apply Hgone.
Qed.

(** ** The namespace *)

(** X12: no step of the process creates, changes or removes an entry whose
    key does not start with the namespace token: whatever else the
    application keeps in the same cache is out of [useGlobal]'s reach. *)
Theorem outside_namespace_untouched w w' r key :
  step seedsExisting w w' →
  head key ≠ Some GLOBAL_KEY →
  ReactQuery.queries (deref r w') !! key = ReactQuery.queries (deref r w) !! key.
Proof.
  intros Hs Hk.
  assert (Hne : ∀ k, key ≠ theKey k).
  { intros k ->. by apply Hk. }
  assert (Hupd : ∀ r0 f w0,
    (∀ c, ReactQuery.queries (f c) !! key = ReactQuery.queries c !! key) →
    ReactQuery.queries (deref r (update r0 f w0)) !! key
      = ReactQuery.queries (deref r w0) !! key).
  { intros r0 f w0 Hf. destruct (decide (r0 = r)) as [->|Hr].
    - by rewrite deref_update_eq.
    - by rewrite deref_update_ne. }
  destruct Hs as [w | ? ? ? ? ? w u w' H | ? ? ? ? ? ? ? ? ? ? ? arg w H
    | ? ? ? ? ? ? ? ? ? ? ? w H | ? ? ? ? ? ? ? ? ? ? ? w H ].
  - by rewrite deref_queryClient.
  - destruct u as [get | data sd rf rs].
    + by destruct (useGlobal_Accessor_inv _ _ _ _ _ _ _ _ _ H) as (_ & _ & _ & -> & _).
    + destruct (useGlobal_Hook_inv _ _ _ _ _ _ _ _ _ _ _ _ H)
        as (r0 & k & _ & _ & _ & _ & _ & _ & _ & ->).
      destruct (decide (r0 = r)) as [->|Hr].
      * rewrite deref_update_eq.
        apply ReactQueryFacts.useQuery_lookup_other. exact (Hne k).
      * by rewrite deref_update_ne.
  - destruct (useGlobal_Hook_inv _ _ _ _ _ _ _ _ _ _ _ _ H)
      as (r0 & k & _ & _ & _ & _ & -> & _ & _ & _).
    apply Hupd. intros c. apply lookup_setQueryData_other. exact (Hne k).
  - destruct (useGlobal_Hook_inv _ _ _ _ _ _ _ _ _ _ _ _ H)
      as (r0 & k & _ & _ & _ & _ & _ & -> & _ & _).
    apply Hupd. intros c. by apply lookup_invalidateQueries_other, matchQuery_outside.
  - destruct (useGlobal_Hook_inv _ _ _ _ _ _ _ _ _ _ _ _ H)
      as (r0 & k & _ & _ & _ & _ & _ & _ & -> & _).
    apply Hupd. intros c.
    by apply ReactQueryFacts.lookup_removeQueries_other, matchQuery_outside.
Qed.

(** ** Outside a provider *)

(** X13: outside a provider hook mode never returns: the library's error
    leaves [useGlobal] when the singleton is there, and [useGlobal]'s own when
    it is not; accessor mode does fall back, and reads the singleton. *)
Theorem hook_mode_needs_provider g cid k initialData w :
  falsy (Some k) = false →
  useGlobal seedsExisting None g cid (Some k) initialData w
    = Throw (match g with
             | Some _ => NoQueryClientSet
             | None => NoQueryClientAvailable
             end)
  ∧ ∀ r, g = Some r →
      ∃ get, useGlobal seedsExisting None g cid None initialData w
               = Return (Accessor get, w)
             ∧ ∀ key w2, get key w2
                 = nullish (ReactQuery.getQueryData (theKey key) (deref r w2)) VNull.
Proof.
  intros Hf. split.
  - destruct g as [r|]; [|reflexivity].
    by apply (useGlobal_hook_outside seedsExisting _ _ _ _ _ r).
  - intros r ->. eexists. split; [reflexivity|]. reflexivity.
Qed.

End Further.

(** * Further scenarios *)

(** [["app", "user", "name"]] and [["app", "user.name"]]. *)
Lemma nested_keys_collapse_app_user_name :
  theKey (KArray ["app"; "user"; "name"]) = theKey (KArray ["app"; "user.name"]).
Proof.
  exact (proj1 (nested_keys_collapse ["app"] ["user"; "name"]
    ltac:(discriminate) ltac:(discriminate))).
Defined.

(** [["app", "user"]] and [["app", "theme"]]. *)
Lemma dot_free_keys_do_not_collide_app :
  theKey (KArray ["app"; "user"]) ≠ theKey (KArray ["app"; "theme"]).
Proof.
  apply dot_free_keys_do_not_collide.
  - discriminate.
  - discriminate.
  - repeat constructor.
  - repeat constructor.
  - discriminate.
Defined.

(** The accessor after ["THEME"] was seeded: nothing changes, and ["USER"]
    reads as [null]. *)
Lemma accessor_reads_only_USER :
  match useGlobal true None (Some 0) 2 None omitted themeLight with
  | Return (Accessor get, w') =>
      w' = themeLight ∧ get (KString "USER") themeLight = VNull
  | _ => False
  end.
Proof.
  pose proof (accessor_reads_only true None (Some 0) 2 None omitted themeLight
    _ _ 0 eq_refl eq_refl) as [Hw Hget].
  split; [exact Hw|].
  exact (proj1 (proj2 (Hget (KString "USER") themeLight)) eq_refl).
Defined.

(** With ["THEME"] and ["USER"] both seeded, resetting ["THEME"] leaves the
    entry of ["USER"] as it was: ["ann"] is still stored. *)
Lemma other_keys_untouched_USER :
  match useGlobal true (Some 0) (Some 0) 1 (Some (KString "THEME"))
          (InitValue (VStr "light")) loaded with
  | Return (Hook _ _ _ reset, _) =>
      ReactQuery.queries (deref 0 (reset themeAndUser)) !! theKey (KString "USER")
        = ReactQuery.queries (deref 0 themeAndUser) !! theKey (KString "USER")
      ∧ ReactQuery.getQueryData (theKey (KString "USER")) (deref 0 themeAndUser)
        = VStr "ann"
      ∧ ReactQuery.getQueryData (theKey (KString "THEME")) (deref 0 themeAndUser)
        = VStr "light"
      ∧ ReactQuery.getQueryData (theKey (KString "THEME"))
          (deref 0 (reset themeAndUser)) = VUndefined
  | _ => False
  end.
Proof.
  pose proof (other_keys_untouched true (Some 0) (Some 0) 1 (KString "THEME")
    (InitValue (VStr "light")) loaded _ _ _ _ _ 0 (KString "USER")
    eq_refl eq_refl ltac:(discriminate) 0) as [_ H].
  split; [exact (proj2 (proj2 (H themeAndUser)))|].
  split; [reflexivity|]. split; reflexivity.
Defined.

(** A second component calls [useGlobal("THEME", "dark")] on the seeded
    entry: it gets ["light"], and ["light"] stays stored. *)
Lemma render_keeps_stored_value_THEME :
  ∃ setData refresh reset w',
    useGlobal true (Some 0) (Some 0) 2 (Some (KString "THEME")) (InitValue (VStr "dark"))
        themeLight
      = Return (Hook (VStr "light") setData refresh reset, w')
    ∧ ReactQuery.getQueryData (theKey (KString "THEME")) (deref 0 w') = VStr "light".
Proof.
  edestruct (render_keeps_stored_value true (Some 0) 2 (KString "THEME")
    (InitValue (VStr "dark")) themeLight 0) as (sd & rf & rs & w' & H1 & H2);
    [reflexivity | reflexivity | discriminate | ].
  exists sd, rf, rs, w'. split; [exact H1 | exact H2].
Defined.

(** [setCount(c => c + 1)] right after the render of [useGlobal("COUNT", 0)]. *)
Lemma updater_right_after_render_COUNT :
  match useGlobal true (Some 0) (Some 0) 1 (Some (KString "COUNT"))
          (InitValue (VNum 0)) loaded with
  | Return (Hook _ setCount _ _, w1) =>
      ReactQuery.getQueryData (theKey (KString "COUNT"))
        (deref 0 (setCount (Updater increment) w1))
      = increment (ReactQuery.getQueryData (theKey (KString "COUNT")) (deref 0 w1))
  | _ => False
  end.
Proof.
  pose proof (updater_right_after_render true (Some 0) (Some 0) 1 (KString "COUNT")
    (InitValue (VNum 0)) loaded _ _ _ _ _ 0 increment eq_refl eq_refl) as H.
  exact (proj2 (H ltac:(discriminate))).
Defined.

(** Load, render, [refresh()]: the entry of ["THEME"] is not fetching. *)
Lemma never_fetches_THEME :
  match useGlobal true (Some 0) (Some 0) 1 (Some (KString "THEME"))
          (InitValue (VStr "light")) loaded with
  | Return (Hook _ _ refresh _, w1) =>
      ReactQuery.state_fetchStatus
        <$> ReactQuery.queries (deref 0 (refresh w1)) !! theKey (KString "THEME")
      = Some ReactQuery.Idle
  | _ => False
  end.
Proof.
  pose proof (never_fetches true
    (update 0 (ReactQuery.invalidateQueries (theKey (KString "THEME"))) themeLight)
    0 (theKey (KString "THEME")) _
    (rtc_l _ _ _ _ (step_module true boot)
      (rtc_l _ _ _ _
        (step_render true (Some 0) (Some 0) 1 (Some (KString "THEME"))
           (InitValue (VStr "light")) loaded _ _ eq_refl)
        (rtc_l _ _ _ _
           (step_refresh true (Some 0) (Some 0) 1 (Some (KString "THEME"))
              (InitValue (VStr "light")) loaded _ _ _ _ _ themeLight eq_refl)
           (rtc_refl _ _))))
    eq_refl) as (_ & H & _).
  exact (f_equal Some H).
Defined.

(** [reset()] on the seeded ["THEME"], then the two readers. *)
Lemma reset_then_reads_THEME :
  match useGlobal true (Some 0) (Some 0) 1 (Some (KString "THEME"))
          (InitValue (VStr "light")) loaded with
  | Return (Hook _ _ _ reset, w1) =>
      ReactQuery.queries (deref 0 (reset w1)) !! theKey (KString "THEME") = None
      ∧ ∃ setData' refresh' reset' w3,
          useGlobal true (Some 0) (Some 0) 2 (Some (KString "THEME")) omitted (reset w1)
            = Return (Hook VUndefined setData' refresh' reset', w3)
  | _ => False
  end.
Proof.
  pose proof (reset_then_reads true (Some 0) (Some 0) 1 (KString "THEME")
    (InitValue (VStr "light")) loaded _ _ _ _ _ 0 themeLight eq_refl eq_refl)
    as (Hgone & _ & Hhook).
  split.
  - exact (Hgone (theKey (KString "THEME")) (reflexivity _)).
  - exact (Hhook (Some 0) 2).
Defined.

(** [reset()] of ["THEME"] in a client that also holds [["todos"]]: the
    entry is as it was, with ["milk"] stored. *)
Lemma outside_namespace_untouched_todos :
  match useGlobal true (Some 0) (Some 0) 1 (Some (KString "THEME"))
          (InitValue (VStr "light")) loaded with
  | Return (Hook _ _ _ reset, _) =>
      ReactQuery.queries (deref 0 (reset withTodos)) !! ["todos"]
        = ReactQuery.queries (deref 0 withTodos) !! ["todos"]
      ∧ ReactQuery.getQueryData ["todos"] (deref 0 withTodos) = VStr "milk"
  | _ => False
  end.
Proof.
  split; [|reflexivity].
  exact (outside_namespace_untouched true withTodos _ 0 ["todos"]
    (step_reset true (Some 0) (Some 0) 1 (Some (KString "THEME"))
       (InitValue (VStr "light")) loaded _ _ _ _ _ withTodos eq_refl)
    ltac:(discriminate)).
Defined.

(** [useGlobal("THEME", "light")] in a component that no provider wraps. *)
Lemma hook_mode_needs_provider_THEME :
  useGlobal true None (Some 0) 1 (Some (KString "THEME")) (InitValue (VStr "light"))
    loaded
  = Throw NoQueryClientSet.
Proof.
  exact (proj1 (hook_mode_needs_provider true (Some 0) 1 (KString "THEME")
    (InitValue (VStr "light")) loaded eq_refl)).
Defined.
